(** * Choreo source-config validator: schemas.js and index.js

    A shallow embedding of the custom yup validators of [schemas.js]
    (uniqueness of endpoint names, the schema-file probe, the identifier
    grammars, the visibility restriction, the env-variable source test,
    the port bounds) and of the dispatch and error reporting of
    [index.js], followed by the properties established about them.

    JavaScript strings are sequences of UTF-16 code units; regular
    expressions without the [u] flag inspect them unit by unit, so a
    string is a [list N] here and literals are written [str "..."]. *)

From Stdlib Require Import QArith.
From stdpp Require Import base gmap sets list strings.

Local Open Scope N_scope.
Local Open Scope list_scope.

(** ** JavaScript data *)

Module JS.

Definition jsstring := list N.

(** The code units of an ASCII literal of the source. *)
Definition str (s : string) : jsstring :=
  map Ascii.N_of_ascii (String.list_ascii_of_string s).

(** [value.startsWith(prefix)] *)
Fixpoint startsWith (value prefix : jsstring) : bool :=
  match prefix, value with
  | [], _ => true
  | p :: prefix', c :: value' => (c =? p) && startsWith value' prefix'
  | _ :: _, [] => false
  end.

(** [value.split(".")[0]]: the text before the first full stop. *)
Fixpoint before_dot (s : jsstring) : jsstring :=
  match s with
  | [] => []
  | c :: s' => if c =? 46 then [] else c :: before_dot s'
  end.

(** The lines of a text, the line feed being the separator. *)
Fixpoint split_lines (s : jsstring) : list jsstring :=
  match s with
  | [] => [[]]
  | c :: s' =>
      match split_lines s' with
      | [] => [[]]
      | line :: lines => if c =? 10 then [] :: line :: lines else (c :: line) :: lines
      end
  end.

(** Numbers are IEEE doubles; a finite double is represented by the
    rational it denotes, which is exact for comparison and equality. *)
Inductive number :=
| NaN
| NegInf
| Fin (q : Q)
| PosInf.

(** [a < b] *)
Definition num_lt (a b : number) : bool :=
  match a, b with
  | NaN, _ | _, NaN => false
  | NegInf, NegInf => false
  | NegInf, _ => true
  | _, NegInf => false
  | PosInf, _ => false
  | Fin _, PosInf => true
  | Fin x, Fin y => negb (Qle_bool y x)
  end.

(** [a > b] *)
Definition num_gt (a b : number) : bool := num_lt b a.

(** [a === b] on numbers *)
Definition num_eq (a b : number) : bool :=
  match a, b with
  | NegInf, NegInf | PosInf, PosInf => true
  | Fin x, Fin y => Qeq_bool x y
  | _, _ => false
  end.

(** The double written [1.0], [1.1], [1.2] in the source. *)
Definition lit_1_0 : number := Fin 1.
Definition lit_1_1 : number := Fin (2476979795053773 # 2251799813685248).
Definition lit_1_2 : number := Fin (5404319552844595 # 4503599627370496).
(** The double a YAML scalar [1.3] parses to. *)
Definition lit_1_3 : number := Fin (5854679515581645 # 4503599627370496).

(** A parsed document is a tree of JavaScript values. *)
#[local] Unset Elimination Schemes.
Inductive value :=
| VUndefined
| VNull
| VBool (b : bool)
| VNum (n : number)
| VStr (s : jsstring)
| VArr (items : list value)
| VObj (fields : list (jsstring * value)).
#[local] Set Elimination Schemes.

(** ToBoolean *)
Definition truthy (v : value) : bool :=
  match v with
  | VUndefined | VNull => false
  | VBool b => b
  | VNum NaN => false
  | VNum (Fin q) => negb (Qeq_bool q 0)
  | VNum _ => true
  | VStr s => match s with [] => false | _ => true end
  | VArr _ | VObj _ => true
  end.

(** [a || b] *)
Definition logical_or (a b : value) : value := if truthy a then a else b.

Fixpoint lookup_field (key : jsstring) (fields : list (jsstring * value)) : value :=
  match fields with
  | [] => VUndefined
  | (k, v) :: rest => if decide (k = key) then v else lookup_field key rest
  end.

(** [o?.key] for a key that no prototype defines: [undefined] on
    [undefined], [null] and on every primitive or array. *)
Definition opt_get (o : value) (key : jsstring) : value :=
  match o with
  | VObj fields => lookup_field key fields
  | _ => VUndefined
  end.

(** Thrown objects: [name] and [message] as [Error.prototype.toString]
    reads them, and the [errors] array that only a
    [yup.ValidationError] carries. *)
Record exn := Exn {
  exn_name : jsstring;
  exn_message : jsstring;
  exn_errors : option (list jsstring)
}.

(** [new Error(message)] *)
Definition Error (message : jsstring) : exn :=
  Exn (str "Error") message None.

(** String coercion of a thrown error, [Error.prototype.toString]. *)
Definition toString (e : exn) : jsstring :=
  match exn_name e, exn_message e with
  | [], m => m
  | n, [] => n
  | n, m => n ++ str ": " ++ m
  end.

(** How a call ends: with a value or with a thrown error. *)
Inductive completion (A : Type) :=
| Normal (a : A)
| Throw (e : exn).
Arguments Normal {A} a.
Arguments Throw {A} e.

End JS.

(** ** Regular expressions

    The fragment of [RegExp] that the identifier grammars use: literals,
    character classes, sequence, alternation and repetition.  Every
    pattern of the source is anchored with [^] and [$] and has no flags,
    so [test] decides whether the whole string belongs to the pattern. *)

Module Regex.
Import JS.

Inductive regex :=
| Void
| Eps
| Class (p : N -> bool)
| Cat (r1 r2 : regex)
| Alt (r1 r2 : regex)
| Star (r : regex).

(** [r+] and [r?] *)
Definition Plus (r : regex) : regex := Cat r (Star r).
Definition Opt (r : regex) : regex := Alt Eps r.

Definition Chr (c : N) : regex := Class (N.eqb c).

Fixpoint Lit (s : jsstring) : regex :=
  match s with
  | [] => Eps
  | c :: s' => Cat (Chr c) (Lit s')
  end.

Fixpoint Seq (rs : list regex) : regex :=
  match rs with
  | [] => Eps
  | [r] => r
  | r :: rs' => Cat r (Seq rs')
  end.

Fixpoint nullable (r : regex) : bool :=
  match r with
  | Void => false
  | Eps => true
  | Class _ => false
  | Cat r1 r2 => nullable r1 && nullable r2
  | Alt r1 r2 => nullable r1 || nullable r2
  | Star _ => true
  end.

Fixpoint deriv (c : N) (r : regex) : regex :=
  match r with
  | Void => Void
  | Eps => Void
  | Class p => if p c then Eps else Void
  | Cat r1 r2 =>
      if nullable r1 then Alt (Cat (deriv c r1) r2) (deriv c r2)
      else Cat (deriv c r1) r2
  | Alt r1 r2 => Alt (deriv c r1) (deriv c r2)
  | Star r1 => Cat (deriv c r1) (Star r1)
  end.

(** [regexp.test(value)] for an anchored pattern. *)
Fixpoint test (r : regex) (value : jsstring) : bool :=
  match value with
  | [] => nullable r
  | c :: value' => test (deriv c r) value'
  end.

(** A pattern that no string matches, decided on its syntax. *)
Fixpoint void (r : regex) : bool :=
  match r with
  | Void => true
  | Eps | Class _ | Star _ => false
  | Cat r1 r2 => void r1 || void r2
  | Alt r1 r2 => void r1 && void r2
  end.

(** The strings of a pattern. *)
Inductive matches : regex -> jsstring -> Prop :=
| MEps : matches Eps []
| MClass p c : p c = true -> matches (Class p) [c]
| MCat r1 r2 s1 s2 : matches r1 s1 -> matches r2 s2 -> matches (Cat r1 r2) (s1 ++ s2)
| MAltL r1 r2 s : matches r1 s -> matches (Alt r1 r2) s
| MAltR r1 r2 s : matches r2 s -> matches (Alt r1 r2) s
| MStarNil r : matches (Star r) []
| MStarCons r s1 s2 : matches r s1 -> matches (Star r) s2 -> matches (Star r) (s1 ++ s2).

(** Character classes of the source patterns. *)
Definition in_range (lo hi c : N) : bool := (lo <=? c) && (c <=? hi).
Definition lower (c : N) : bool := in_range 97 122 c.
Definition upper (c : N) : bool := in_range 65 90 c.
(** [\d] *)
Definition digit (c : N) : bool := in_range 48 57 c.

(** [\s]: WhiteSpace and LineTerminator code units. *)
Definition whitespace (c : N) : bool :=
  in_range 9 13 c || (c =? 32) || (c =? 160) || (c =? 5760)
  || in_range 8192 8202 c || (c =? 8232) || (c =? 8233) || (c =? 8239)
  || (c =? 8287) || (c =? 12288) || (c =? 65279).

(** [[a-zA-Z0-9_-]] *)
Definition token_char (c : N) : bool :=
  lower c || upper c || digit c || (c =? 95) || (c =? 45).

(** [[a-zA-Z0-9\s_.-]] *)
Definition thirdparty_name_char (c : N) : bool :=
  lower c || upper c || digit c || whitespace c || (c =? 95) || (c =? 46) || (c =? 45).

(** [[vV]] *)
Definition v_char (c : N) : bool := (c =? 118) || (c =? 86).

(** [(PUBLIC|PROJECT|ORGANIZATION)] *)
Definition visibility_alt : regex :=
  Alt (Lit (str "PUBLIC")) (Alt (Lit (str "PROJECT")) (Lit (str "ORGANIZATION"))).

End Regex.

(** ** The part of yup the schemas rely on *)

Module Yup.
Import JS.

(** What a test function returns: a value of the document language or
    a [yup.ValidationError] object. *)
Inductive result :=
| Value (v : value)
| ValidationError (message : jsstring).

(** [flag || new yup.ValidationError(message)] *)
Definition or_error (flag : bool) (message : jsstring) : result :=
  if flag then Value (VBool true) else ValidationError message.

(** What the runner makes of the result: a [ValidationError] is
    reported as it is, any falsy value becomes a violation carrying the
    message of the test, and a truthy value is a pass.  The validators
    that go through [runTest] return [true], [undefined] or an error they
    construct; a test that returns a value of the document goes through
    [runReturned] below. *)
Definition runTest (message : jsstring) (r : result) : option jsstring :=
  match r with
  | ValidationError m => Some m
  | Value v => if truthy v then None else Some message
  end.

(** [ValidationError.isError]: a truthy value whose [name] is the string
    [ValidationError], whatever else it is. *)
Definition isError (v : value) : bool :=
  truthy v
  && match opt_get v (str "name") with
     | VStr s => bool_decide (s = str "ValidationError")
     | _ => false
     end.

(** The outcome of one test of a schema on a value: the test is not run
    when the type check of the schema has failed; a returned value that
    passes [isError] is taken for an error of the library and handed on as
    such, where what follows depends on that value; otherwise a truthy
    value is a pass and a falsy one is reported with the message of the
    test. *)
Inductive outcome :=
| NotRun
| Passed
| Reported (message : jsstring)
| TakenForError (returned : value).

Definition runReturned (message : jsstring) (returned : value) : outcome :=
  if isError returned then TakenForError returned
  else if truthy returned then Passed
  else Reported message.

(** The message of a test that declares none, [mixed.default]; a field
    without a path is called [this]. *)
Definition default_message (path : jsstring) : jsstring :=
  match path with [] => str "this" | _ => path end ++ str " is invalid".

(** A test function that throws rejects the validation with what it
    threw. *)
Definition runTestFn (message : jsstring) (c : completion result)
  : completion (option jsstring) :=
  match c with
  | Normal r => Normal (runTest message r)
  | Throw e => Throw e
  end.

(** The tests of a [yup.number()] chain.  The value is the field after
    the number cast: [None] when the field is absent, [NaN] when the
    cast failed. *)
Inductive number_test :=
| typeError
| required
| moreThan (more : number)
| lessThan (less : number).

Definition passes (v : option number) (t : number_test) : bool :=
  match t, v with
  | typeError, Some NaN => false
  | typeError, _ => true
  | required, None => false
  | required, Some _ => true
  | moreThan _, None | lessThan _, None => true
  | moreThan more, Some n => num_gt n more
  | lessThan less, Some n => num_lt n less
  end.

(** Validation without [abortEarly]: a failed type check is reported
    alone, otherwise every failing test of the chain is reported, in
    the order of the chain. *)
Definition validate_number (chain : list number_test) (v : option number)
  : list number_test :=
  if passes v typeError then List.filter (fun t => negb (passes v t)) chain
  else [typeError].

End Yup.

(** ** schemas.js *)

Module Schemas.
Import JS Regex Yup.

Definition PROJECT_ONLY_TYPES : list jsstring := [str "GRPC"; str "TCP"; str "UDP"].
Definition PROJECT_VISIBILITY : jsstring := str "Project".
Definition LATEST_COMPONENT_YAML_SCHEMA_VERSION : number := lit_1_2.

(** An element of [endpoints], with the fields the custom validators
    read, each after its cast: [None] is an absent field. *)
Record endpoint := {
  name : option jsstring;
  type : option jsstring;
  networkVisibilities : option (list jsstring);
  schemaFilePath : option jsstring
}.

Section EndpointNameUniqueness.
(** The [TypeError] of [ep.name] on a [null] element. *)
Variable name_of_null : exn.



End EndpointNameUniqueness.

(** [port: yup.number().required().moreThan(1000).lessThan(65535)], the
    same chain in [serviceSchema] and in [endpointSchemaV0D1]. *)
Definition port_chain : list number_test :=
  [required; moreThan (Fin 1000); lessThan (Fin 65535)].
Definition serviceSchema_port (port : option number) : list number_test :=
  validate_number port_chain port.
Definition endpointSchemaV0D1_port (port : option number) : list number_test :=
  validate_number port_chain port.

Section SchemaFileExists.
(** [path.join] and [fs.existsSync], the latter able to throw. *)
Variable join : jsstring -> jsstring -> jsstring.
Variable existsSync : jsstring -> completion bool.

Definition schema_file_missing (value : jsstring) : jsstring :=
  str "Schema file does not exist at the given path " ++ value ++ str ".".

(** In the [catch] branch the error object is built and dropped, and
    the function ends without a [return]. *)
Definition schemaFileExists (srcDir : jsstring) (value : option jsstring)
  : completion result :=
  match value with
  | None | Some [] => Normal (Value (VBool true))
  | Some value =>
      let schemaFilePath := join srcDir value in
      match existsSync schemaFilePath with
      | Normal hasFile =>
          Normal (or_error hasFile (schema_file_missing value))
      | Throw error => Normal (Value VUndefined)
      end
  end.

(** The violation of the field [schemaFilePath] at [path], if any. *)
Definition schemaFilePath_violation (srcDir path : jsstring) (value : option jsstring)
  : completion (option jsstring) :=
  runTestFn (default_message path) (schemaFileExists srcDir value).
End SchemaFileExists.

(** [fs.existsSync] of Node, over the access check it performs: it never
    throws, and answers [false] whenever the check fails, for a missing
    file as for any other error. *)
Definition fs_existsSync (access : jsstring → completion unit) (path : jsstring)
  : completion bool :=
  Normal (match access path with
          | Normal _ => true
          | Throw _ => false
          end).

(** [[a-zA-Z0-9_-]+] *)
Definition alphanumericRegex : regex := Plus (Class token_char).

(** [\d+(\.\d+)*] and [\d+(\.\d+)?] *)
Definition digits : regex := Plus (Class digit).
Definition dotted_version : regex := Cat digits (Star (Cat (Chr 46) digits)).
Definition major_minor : regex := Cat digits (Opt (Cat (Chr 46) digits)).

Definition choreoSvcRefNameRegex : regex :=
  Seq [Lit (str "choreo:///"); alphanumericRegex; Chr 47; alphanumericRegex; Chr 47;
       alphanumericRegex; Chr 47; alphanumericRegex; Chr 47;
       Chr 118; major_minor; Chr 47; visibility_alt].

Definition thirdPartySvcRefNameRegex : regex :=
  Seq [Lit (str "thirdparty:"); Plus (Class thirdparty_name_char); Chr 47;
       Class v_char; dotted_version].

Definition dbSvcRefNameRegex : regex :=
  Seq [Lit (str "database:"); Opt (Cat alphanumericRegex (Chr 47)); alphanumericRegex].

Definition svcRefNameRegex : regex :=
  Seq [Opt (Lit (str "service:"));
       Opt (Seq [Chr 47; alphanumericRegex; Chr 47]);
       alphanumericRegex; Chr 47;
       Opt (Class v_char); dotted_version;
       Opt (Cat (Chr 47) alphanumericRegex);
       Opt (Cat (Chr 47) visibility_alt)].

Definition invalid_identifier (path : jsstring) : jsstring :=
  path ++ str " has an invalid service identifier. ".

Definition choreo_format : jsstring :=
  str "Use the format choreo:///<org-handle>/<project-handle>/<component-handle>/<endpoint-identifier>/<major-version>/<network-visibility>".
Definition thirdparty_format : jsstring :=
  str "Use the format thirdparty:<service_name>/<version>, "
  ++ str "allowing only alphanumeric characters, periods (.), underscores (_), hyphens (-), and slashes (/) after thirdparty:.".
Definition database_format : jsstring :=
  str "Use the format database:[<serverName>/]<databaseName> where optional fields are in brackets, "
  ++ str "allowing only alphanumeric characters, underscores (_), hyphens (-), and slashes (/) after database:.".
Definition service_format : jsstring :=
  str "Use the format [service:][/<project-handle>/]<component-handle>/<major-version>[/<endpoint-handle>][/<network-visibility>] where optional fields are specified in brackets.".
Definition only_three_types (path : jsstring) : jsstring :=
  path ++ str " has an invalid service identifier. It can only contain choreo, thirdparty, or database types.".
Definition generic_format : jsstring :=
  str "For services, use [service:][/<project-handle>/]<component-handle>/<major-version>[/<endpoint-handle>][/<network-visibility>]. "
  ++ str "For databases, use database:[<serverName>/]<databaseName>. "
  ++ str "For third-party services, use thirdparty:<service_name>/<version>. "
  ++ str "Optional fields are specified in brackets.".

(** [regex.test(value) || new yup.ValidationError(message)] *)
Definition test_or_error (r : regex) (value message : jsstring) : result :=
  or_error (test r value) message.

Definition validateServiceName (value path : jsstring) : result :=
  if startsWith value (str "choreo:///") then
    test_or_error choreoSvcRefNameRegex value (invalid_identifier path ++ choreo_format)
  else if startsWith value (str "thirdparty:") then
    test_or_error thirdPartySvcRefNameRegex value (invalid_identifier path ++ thirdparty_format)
  else if startsWith value (str "database:") then
    test_or_error dbSvcRefNameRegex value (invalid_identifier path ++ database_format)
  else ValidationError (only_three_types path).

Definition validateResourceRef (value path : jsstring) : result :=
  if startsWith value (str "service:") then
    test_or_error svcRefNameRegex value (invalid_identifier path ++ service_format)
  else if startsWith value (str "thirdparty:") then
    test_or_error thirdPartySvcRefNameRegex value (invalid_identifier path ++ thirdparty_format)
  else if startsWith value (str "database:") then
    test_or_error dbSvcRefNameRegex value (invalid_identifier path ++ database_format)
  else test_or_error svcRefNameRegex value (invalid_identifier path ++ generic_format).

(** The violation each classifier reports for a field at [path]. *)
Definition serviceName_violation (value path : jsstring) : option jsstring :=
  runTest (default_message path) (validateServiceName value path).
Definition resourceRef_violation (value path : jsstring) : option jsstring :=
  runTest (default_message path) (validateResourceRef value path).

(** [projectVisibilityOnly], with [type] read from the parent object. *)
Definition projectVisibilityOnly
    (visibility : option (list jsstring)) (type : option jsstring) (path : jsstring)
  : result :=
  let isVisibilityProjectOnly :=
    match visibility with
    | None => false
    | Some items =>
        (length items =? 1)%nat
        && match items !! 0%nat with
           | Some first => bool_decide (first = PROJECT_VISIBILITY)
           | None => false
           end
    end in
  let isTypeProjectOnly :=
    match type with
    | None => false
    | Some t => bool_decide (t ∈ PROJECT_ONLY_TYPES)
    end in
  if isTypeProjectOnly && negb isVisibilityProjectOnly then
    let erroredEndpoint :=
      match before_dot path with [] => str "endpoint" | e => e end in
    ValidationError
      (str "The " ++ erroredEndpoint ++ str " is a type " ++ default [] type
       ++ str " endpoint and can only have networkVisibility set to " ++ PROJECT_VISIBILITY)
  else Value (VBool true).

Definition networkVisibilities_violation (ep : endpoint) (path : jsstring) : option jsstring :=
  runTest (default_message path) (projectVisibilityOnly (networkVisibilities ep) (type ep) path).

(** The [oneOfRequired] tests of the env-variable schemas. *)
Definition env_value (envVariable : JS.value) : JS.value :=
  opt_get envVariable (str "value").
Definition env_configGroupRef (envVariable : JS.value) : JS.value :=
  opt_get (opt_get envVariable (str "valueFrom")) (str "configGroupRef").
Definition env_connectionRef (envVariable : JS.value) : JS.value :=
  opt_get (opt_get envVariable (str "valueFrom")) (str "connectionRef").
Definition env_configForm (envVariable : JS.value) : JS.value :=
  opt_get (opt_get envVariable (str "valueFrom")) (str "configForm").

(** The test functions return the first present source itself, not a
    boolean. *)
Definition oneOfRequiredV0D1 (envVariable : JS.value) : JS.value :=
  logical_or (env_value envVariable)
    (logical_or (env_configGroupRef envVariable) (env_connectionRef envVariable)).

Definition oneOfRequiredV0D2 (envVariable : JS.value) : JS.value :=
  logical_or (env_value envVariable)
    (logical_or (env_configGroupRef envVariable)
       (logical_or (env_connectionRef envVariable) (env_configForm envVariable))).

(** The [oneOfRequired] test of each schema on an entry of [env], the
    entry being taken after the cast of [yup.object()]: an entry that is
    not an object then ([null], a scalar, an array) fails the type check
    and the test is not run. *)
Definition envVariableSchemaV0D1 (envVariable : JS.value) : outcome :=
  match envVariable with
  | VObj _ =>
      runReturned (str "One of value, connectionRef or configGroupRef must be provided")
        (oneOfRequiredV0D1 envVariable)
  | _ => NotRun
  end.

Definition envVariableSchemaV0D2 (envVariable : JS.value) : outcome :=
  match envVariable with
  | VObj _ =>
      runReturned (str "One of value, connectionRef, configGroupRef  or configForm must be provided")
        (oneOfRequiredV0D2 envVariable)
  | _ => NotRun
  end.


End Schemas.

(** ** index.js *)

Module Index.
Import JS Yup Schemas.

(** The document schemas that [schemas.js] exports. *)
Inductive schema :=
| componentYamlSchemaV1D0
| componentYamlSchemaV1D1
| componentYamlSchemaV1D2
| endpointYamlSchemaV0D1
| componentConfigYamlSchemaV1beta1.

(** What a validation call does besides returning: the schemas it runs
    and the warnings it emits, in order. *)
Inductive event :=
| Validated (s : schema) (sourceRootDir : jsstring)
| Warned (message : jsstring).

Definition olderSrcConfigMessage : jsstring :=
  str "Older Source Config Detected: You are using an older version of the source configuration. Please update to the latest version to take advantage of new features.".

(** [`\n- ${e}`] *)
Definition bullet (e : jsstring) : jsstring := 10 :: str "- " ++ e.

(** A [case] label that is a number literal, compared with [===]. *)
Definition case_number (v : value) (label : number) : bool :=
  match v with
  | VNum n => num_eq n label
  | _ => false
  end.

(** The error of the [default] branch of [validateComponentYaml]. *)
Definition unsupported : exn :=
  Error (str "SchemaVersion must be one of the following values: 1.0, 1.1").

Section Index.
(** [errCodes] and [sourceConfigFileTypes] of [enums.js]. *)
Variables USER_ERROR INTERNAL_ERROR : jsstring.
Variables COMPONENT_YAML ENDPOINT_YAML COMPONENT_CONFIG_YAML : jsstring.
(** [schema(sourceRootDir).validate(document, { abortEarly: false })]:
    it resolves, or rejects with a [ValidationError] that lists the
    violations, or with whatever a test function threw. *)
Variable validate : schema -> jsstring -> value -> completion unit.
(** The [TypeError] of reading a property of [undefined] or [null]. *)
Variable property_of_nothing : value -> exn.

Definition constructValidationErrorMessage (err : exn) (fileType : jsstring) : jsstring :=
  match exn_errors err with
  | None | Some [] =>
      INTERNAL_ERROR ++ str " Failed to validate " ++ fileType
      ++ str ", something went wrong:" ++ toString err
  | Some errors =>
      let errorMsg := USER_ERROR ++ str " " ++ fileType ++ str " validation failed: " in
      let errorList :=
        match errors with
        | [e] => e
        | _ => concat (map bullet errors)
        end in
      errorMsg ++ errorList
  end.

Definition run (s : schema) (sourceRootDir : jsstring) (srcConfigYamlFile : value)
  : list event * completion unit :=
  ([Validated s sourceRootDir], validate s sourceRootDir srcConfigYamlFile).

Definition validateComponentYaml
    (srcConfigYamlFile : value) (sourceRootDir : jsstring) (schemaVersion : value)
  : list event * completion unit :=
  if case_number schemaVersion lit_1_0 then
    run componentYamlSchemaV1D0 sourceRootDir srcConfigYamlFile
  else if case_number schemaVersion lit_1_1 then
    run componentYamlSchemaV1D1 sourceRootDir srcConfigYamlFile
  else
    ([], Throw unsupported).

(** The body of the [try] block. *)
Definition dispatch
    (srcConfigYamlFile : value) (sourceRootDir fileType : jsstring)
  : list event * completion unit :=
  if decide (fileType = COMPONENT_YAML) then
    match srcConfigYamlFile with
    | VUndefined | VNull => ([], Throw (property_of_nothing srcConfigYamlFile))
    | _ =>
        let schemaVersion := opt_get srcConfigYamlFile (str "schemaVersion") in
        validateComponentYaml srcConfigYamlFile sourceRootDir schemaVersion
    end
  else if decide (fileType = COMPONENT_CONFIG_YAML) then
    let '(events, c) := run componentConfigYamlSchemaV1beta1 sourceRootDir srcConfigYamlFile in
    (Warned olderSrcConfigMessage :: events, c)
  else if decide (fileType = ENDPOINT_YAML) then
    let '(events, c) := run endpointYamlSchemaV0D1 sourceRootDir srcConfigYamlFile in
    (Warned olderSrcConfigMessage :: events, c)
  else
    ([], Throw (Error (str "'" ++ fileType ++ str "' is not a valid source config file type"))).

Definition validateSourceConfigFile
    (srcConfigYamlFile : value) (sourceRootDir fileType : jsstring)
  : list event * completion unit :=
  let '(events, c) := dispatch srcConfigYamlFile sourceRootDir fileType in
  match c with
  | Normal _ => (events, Normal tt)
  | Throw err => (events, Throw (Error (constructValidationErrorMessage err fileType)))
  end.

(** The schemas a call ran. *)
Definition executed (events : list event) : list schema :=
  omap (fun e => match e with Validated s _ => Some s | Warned _ => None end) events.

(** The violations an error carries, [err.errors]. *)
Definition violations (err : exn) : list jsstring :=
  default [] (exn_errors err).
End Index.

End Index.

(** ** The grammar of third-party references as the specification words it *)

Module Grammar.
Import JS Regex.

(** [[A-Za-z0-9 _.\-]]: alphanumerics, the space, [_], [.] and [-]. *)
Definition spec_name_char (c : N) : bool :=
  lower c || upper c || digit c || (c =? 32) || (c =? 95) || (c =? 46) || (c =? 45).

(** [thirdparty:[A-Za-z0-9 _.\-]+/[vV]\d+(\.\d+)*] *)
Definition spec_thirdparty : regex :=
  Seq [Lit (str "thirdparty:"); Plus (Class spec_name_char); Chr 47;
       Class v_char; Cat (Plus (Class digit)) (Star (Cat (Chr 46) (Plus (Class digit))))].

(** The same shape spelled out on the string, for a given class of name
    characters: a non-empty name, a slash, [v] or [V], and one or more
    dot-separated groups of digits. *)
Definition all_of (p : N -> bool) (s : jsstring) : Prop :=
  s ≠ [] ∧ Forall (fun c => p c = true) s.

Definition thirdparty_shape (name_char : N -> bool) (value : jsstring) : Prop :=
  ∃ (name : jsstring) (v : N) (major : jsstring) (minors : list jsstring),
    value = str "thirdparty:" ++ name ++ [47] ++ [v] ++ major
            ++ concat (map (fun m => 46 :: m) minors)
    ∧ all_of name_char name
    ∧ (v = 118 ∨ v = 86)
    ∧ all_of digit major
    ∧ Forall (all_of digit) minors.

End Grammar.

(** ** Sample documents *)

Module Samples.
Import JS Schemas.


Definition typed (t : string) (visibilities : option (list jsstring)) : endpoint :=
  {| name := Some (str "api"); type := Some (str t);
     networkVisibilities := visibilities; schemaFilePath := None |}.



(** [{name: "X"}] after the cast, which fills in the defaults of
    [valueFrom]. *)
Definition env_no_source : value :=
  VObj [(str "name", VStr (str "X"));
        (str "valueFrom", VObj [(str "connectionRef", VNull); (str "configGroupRef", VNull)])].

(** [{name: "X", value: "1"}] *)
Definition env_value_only : value :=
  VObj [(str "name", VStr (str "X")); (str "value", VStr (str "1"))].

(** A reference whose [name] is the word by which yup recognises its own
    errors, and an entry that has it as its only source. *)
Definition error_named_ref : value :=
  VObj [(str "name", VStr (str "ValidationError")); (str "key", VStr (str "b"))].
Definition env_error_named : value :=
  VObj [(str "name", VStr (str "X"));
        (str "valueFrom", VObj [(str "connectionRef", error_named_ref)])].


End Samples.

(** ** String chains of yup *)

Module YupString.
Import JS Regex.

(** The tests of a [yup.string()] chain that the schemas use.  The value
    is the field after the string cast: [None] when it is absent.  Every
    [matches] of the source is anchored and carries its own message,
    computed from the path. *)
Inductive string_test :=
| required
| max (limit : nat)
| matches_regex (r : regex) (message : jsstring → jsstring).

Inductive violation :=
| is_required
| exceeds (limit : nat)
| reported (message : jsstring).

(** [required] rejects the empty string as well; [max] and [matches]
    let an absent value pass, and [matches] searches the empty string
    like any other. *)
Definition passes (v : option jsstring) (t : string_test) : bool :=
  match t, v with
  | required, None | required, Some [] => false
  | required, Some _ => true
  | max _, None | matches_regex _ _, None => true
  | max limit, Some s => (length s <=? limit)%nat
  | matches_regex r _, Some s => test r s
  end.

Definition violation_of (path : jsstring) (t : string_test) : violation :=
  match t with
  | required => is_required
  | max limit => exceeds limit
  | matches_regex _ message => reported (message path)
  end.

(** Validation without [abortEarly]: the failing tests, in the order of
    the chain. *)
Definition validate_string (chain : list string_test) (path : jsstring)
    (v : option jsstring) : list violation :=
  map (violation_of path) (List.filter (λ t, negb (passes v t)) chain).

End YupString.

(** ** schemas.js: the remaining validators and field schemas *)

Module Fields.
Import JS Regex Yup Schemas.

Definition BASE_PATH_REQUIRED_TYPES : list jsstring := [str "REST"; str "GraphQL"; str "WS"].

(** An element of [env] as the uniqueness test reads it: its [name]
    after the cast. *)
Record envVariable := { env_name : option jsstring }.

Section EnvVariableUniqueness.
(** The [TypeError] of [env.name] on a [null] element. *)
Variable name_of_null : exn.

(** The callback of [arr.every] with the [Set] it fills; a [null]
    element of the array is [None]. *)
Fixpoint every_new_env (envSet : gset (option jsstring)) (arr : list (option envVariable))
  : completion bool :=
  match arr with
  | [] => Normal true
  | None :: _ => Throw name_of_null
  | Some env :: rest =>
      let envName := env_name env in
      if decide (envName ∈ envSet) then Normal false
      else every_new_env ({[envName]} ∪ envSet) rest
  end.

Definition checkEnvVariableUniqueness (arr : option (list (option envVariable)))
  : completion result :=
  match arr with
  | None => Normal (Value (VBool true))
  | Some arr =>
      match every_new_env ∅ arr with
      | Normal isUnique =>
          Normal (or_error isUnique (str "Environment variable names must be unique"))
      | Throw e => Throw e
      end
  end.

Definition env_violation (arr : option (list (option envVariable))) (path : jsstring)
  : completion (option jsstring) :=
  runTestFn (default_message path) (checkEnvVariableUniqueness arr).
End EnvVariableUniqueness.

(** [contextRequired], with [type] read from the parent object. *)
Definition contextRequired (value type : option jsstring) (path : jsstring) : result :=
  let required_type :=
    match type with
    | None => false
    | Some t => bool_decide (t ∈ BASE_PATH_REQUIRED_TYPES)
    end in
  let missing := match value with None | Some [] => true | Some _ => false end in
  if required_type && missing then
    ValidationError (path ++ str " is required for " ++ default [] type ++ str "-type endpoints")
  else Value (VBool true).

(** [/^\/[a-zA-Z0-9\/\-_]*$/] *)
Definition path_char (c : N) : bool :=
  lower c || upper c || digit c || (c =? 47) || (c =? 45) || (c =? 95).
Definition path_regex : regex := Cat (Chr 47) (Star (Class path_char)).

(** [/^[a-z][a-z0-9_-]*$/] *)
Definition name_char (c : N) : bool := lower c || digit c || (c =? 95) || (c =? 45).
Definition name_regex : regex := Cat (Class lower) (Star (Class name_char)).

(** [/^[a-zA-Z_][a-zA-Z0-9_]*$/] *)
Definition env_first_char (c : N) : bool := lower c || upper c || (c =? 95).
Definition env_char (c : N) : bool := lower c || upper c || digit c || (c =? 95).
Definition env_name_regex : regex := Cat (Class env_first_char) (Star (Class env_char)).

(** [basePath] of [serviceSchema] *)
Definition basePath_message (path : jsstring) : jsstring :=
  path ++ str " must start with a forward slash and can only contain alphanumeric characters, hyphens, underscores and forward slashes.".
Definition serviceSchema_basePath (path : jsstring) (basePath : option jsstring)
  : list YupString.violation :=
  YupString.validate_string [YupString.matches_regex path_regex basePath_message] path basePath.

(** [context] of [endpointSchemaV0D1].  Inside the endpoint object yup
    orders the violations by field and puts those without a path last;
    the error that [contextRequired] constructs has none, so it comes
    after the violation of the pattern. *)
Definition context_message (path : jsstring) : jsstring :=
  path ++ str " must start with a forward slash and can only contain alphanumeric characters, hyphens, and forward slashes.".
Definition endpointSchemaV0D1_context (path : jsstring) (type context : option jsstring)
  : list YupString.violation :=
  YupString.validate_string [YupString.matches_regex path_regex context_message] path context
  ++ match runTest (default_message path) (contextRequired context type path) with
     | Some message => [YupString.reported message]
     | None => []
     end.

(** [name] of [endpointSchemaV0D2] *)
Definition name_message (path : jsstring) : jsstring :=
  path ++ str " must start with a lowercase letter and can only contain lowercase letters, numbers, underscores (_), and hyphens (-).".
Definition endpointSchemaV0D2_name (path : jsstring) (name : option jsstring)
  : list YupString.violation :=
  YupString.validate_string
    [YupString.required; YupString.max 50; YupString.matches_regex name_regex name_message]
    path name.

(** [name] of the env-variable schemas *)
Definition env_name_message : jsstring :=
  str "Environment variable name must start with a letter or underscore and can only contain letters, numbers, and underscores.".
Definition envVariableSchema_name (path : jsstring) (name : option jsstring)
  : list YupString.violation :=
  YupString.validate_string
    [YupString.required; YupString.matches_regex env_name_regex (λ _, env_name_message)]
    path name.

(** The parts of a resource reference, as the comment above
    [svcRefNameRegex] lists them; an optional part that is left out is
    [None]. *)
Record resource_ref := {
  with_service : bool;
  project_handle : option jsstring;
  component_handle : jsstring;
  version_mark : option N;
  version_major : jsstring;
  version_minors : list jsstring;
  endpoint_handle : option jsstring;
  network_visibility : option jsstring
}.

Definition optional (prefix : jsstring) (part : option jsstring) (suffix : jsstring) : jsstring :=
  match part with
  | None => []
  | Some text => prefix ++ text ++ suffix
  end.

Definition render (ref : resource_ref) : jsstring :=
  (if with_service ref then str "service:" else [])
  ++ optional [47] (project_handle ref) [47]
  ++ component_handle ref ++ [47]
  ++ match version_mark ref with None => [] | Some v => [v] end
  ++ version_major ref ++ concat (map (λ m, 46 :: m) (version_minors ref))
  ++ optional [47] (endpoint_handle ref) []
  ++ optional [47] (network_visibility ref) [].

Definition visibilities : list jsstring := [str "PUBLIC"; str "PROJECT"; str "ORGANIZATION"].

(** Handles are non-empty runs of [[a-zA-Z0-9_-]], the version is an
    optional [v] or [V] and dot-separated groups of digits, and the
    visibility is one of the three upper-case words. *)
Definition handle (s : jsstring) : Prop :=
  s ≠ [] ∧ Forall (λ c, token_char c = true) s.
Definition number_group (s : jsstring) : Prop :=
  s ≠ [] ∧ Forall (λ c, digit c = true) s.
Definition if_present (P : jsstring → Prop) (part : option jsstring) : Prop :=
  ∀ text, part = Some text → P text.

Definition well_formed (ref : resource_ref) : Prop :=
  if_present handle (project_handle ref)
  ∧ handle (component_handle ref)
  ∧ (∀ v, version_mark ref = Some v → v = 118 ∨ v = 86)
  ∧ number_group (version_major ref)
  ∧ Forall number_group (version_minors ref)
  ∧ if_present handle (endpoint_handle ref)
  ∧ if_present (λ text, text ∈ visibilities) (network_visibility ref).

End Fields.

(** ** index.js: reading, parsing and the entry point *)

Module Main.
Import JS Yup Schemas Index.

(** What [main] does to the outside: the events of the validation, the
    line it logs and the failure it sets. *)
Inductive output :=
| Ran (e : event)
| Logged (message : jsstring)
| SetFailed (message : jsstring).

Section Main.
Variables USER_ERROR INTERNAL_ERROR : jsstring.
Variables COMPONENT_YAML ENDPOINT_YAML COMPONENT_CONFIG_YAML : jsstring.
(** [core.getInput], [path.join], [fs.readFileSync(_, "utf8")] and
    [yaml.load]. *)
Variable getInput : jsstring → jsstring.
Variable join : jsstring → jsstring → jsstring.
Variable readFileSync : jsstring → completion jsstring.
Variable load : jsstring → completion value.
Variable validate : schema → jsstring → value → completion unit.
Variable property_of_nothing : value → exn.

Definition readInput : jsstring * jsstring :=
  (getInput (str "source-root-dir-path"), getInput (str "file-type")).

Definition readSrcConfigYaml (filePath fileType : jsstring) : completion jsstring :=
  let fullPath := join filePath (str ".choreo") in
  let attempt :=
    if bool_decide (fileType = COMPONENT_YAML)
       || bool_decide (fileType = ENDPOINT_YAML)
       || bool_decide (fileType = COMPONENT_CONFIG_YAML)
    then readFileSync (join fullPath fileType)
    else Throw (Error (str "'" ++ fileType ++ str "' is not a valid source config file type")) in
  match attempt with
  | Normal fileContent => Normal fileContent
  | Throw error =>
      Throw (Error (USER_ERROR ++ str " Failed to read source config file: "
                    ++ exn_message error))
  end.

Definition parseYaml (fileContent : jsstring) : completion value :=
  match load fileContent with
  | Normal document => Normal document
  | Throw error =>
      Throw (Error (USER_ERROR ++ str " Failed to parse yaml: " ++ exn_message error))
  end.

(** The [catch] block of [main]. *)
Definition report (error : exn) : list output :=
  [Logged (exn_message error); SetFailed (str "Source config file validation failed")].

Definition main : list output :=
  let '(sourceRootDir, fileType) := readInput in
  match readSrcConfigYaml sourceRootDir fileType with
  | Throw error => report error
  | Normal fileContent =>
      match parseYaml fileContent with
      | Throw error => report error
      | Normal srcConfigYamlFile =>
          let '(events, c) :=
            validateSourceConfigFile USER_ERROR INTERNAL_ERROR
              COMPONENT_YAML ENDPOINT_YAML COMPONENT_CONFIG_YAML validate property_of_nothing
              srcConfigYamlFile sourceRootDir fileType in
          map Ran events
          ++ match c with
             | Normal _ => []
             | Throw error => report error
             end
      end
  end.
End Main.

End Main.

(** * Properties *)

Import JS Regex Yup Schemas Index Grammar Samples.
Import Fields Main.

(** ** Port bounds *)

Lemma Qlt_bool_iff (x y : Q) : negb (Qle_bool y x) = true ↔ (x < y)%Q.
Proof.
  rewrite negb_true_iff. split.
  - intros H. apply Qnot_le_lt. intros Hle. apply Qle_bool_iff in Hle. congruence.
  - intros H. destruct (Qle_bool y x) eqn:E; [|done].
    apply Qle_bool_iff in E. exfalso. exact (Qlt_not_le _ _ H E).
Qed.

Lemma port_chain_passes (port : option number) :
  validate_number port_chain port = []
  ↔ ∃ q, port = Some (Fin q) ∧ (1000 < q)%Q ∧ (q < 65535)%Q.
Proof.
  unfold validate_number, port_chain.
  destruct port as [[| |q|]|]; simpl.
  - split; [done | intros (q & H & _); done].
  - split; [done | intros (q & H & _); done].
  - unfold num_gt. simpl.
    destruct (negb (Qle_bool q 1000)) eqn:E1; destruct (negb (Qle_bool 65535 q)) eqn:E2; simpl.
    + split; [intros _ | done]. exists q. by rewrite <- !Qlt_bool_iff.
    + split; [done|]. intros (q' & [= <-] & _ & H). apply Qlt_bool_iff in H. congruence.
    + split; [done|]. intros (q' & [= <-] & H & _). apply Qlt_bool_iff in H. congruence.
    + split; [done|]. intros (q' & [= <-] & H & _). apply Qlt_bool_iff in H. congruence.
  - split; [done | intros (q & H & _); done].
  - split; [done | intros (q & H & _); done].
Qed.

(** C6: the port of a service object and of a v0.1 endpoint passes its
    chain exactly when it is a number strictly between 1000 and 65535;
    1000 and 65535 are each reported, 1001 and 65534 are not. *)
Theorem port_strictly_between_1000_and_65535 :
  (∀ port : option number,
      (serviceSchema_port port = []
       ↔ ∃ q, port = Some (Fin q) ∧ (1000 < q)%Q ∧ (q < 65535)%Q)
      ∧ (endpointSchemaV0D1_port port = []
         ↔ ∃ q, port = Some (Fin q) ∧ (1000 < q)%Q ∧ (q < 65535)%Q))
  ∧ serviceSchema_port (Some (Fin 1000)) = [moreThan (Fin 1000)]
  ∧ endpointSchemaV0D1_port (Some (Fin 1000)) = [moreThan (Fin 1000)]
  ∧ serviceSchema_port (Some (Fin 65535)) = [lessThan (Fin 65535)]
  ∧ endpointSchemaV0D1_port (Some (Fin 65535)) = [lessThan (Fin 65535)]
  ∧ serviceSchema_port (Some (Fin 1001)) = []
  ∧ endpointSchemaV0D1_port (Some (Fin 1001)) = []
  ∧ serviceSchema_port (Some (Fin 65534)) = []
  ∧ endpointSchemaV0D1_port (Some (Fin 65534)) = [].
Proof.
  split; [|repeat split; reflexivity].
  intros port. split; apply port_chain_passes.
Qed.

(** ** Uniqueness of endpoint names *)

Lemma fresh_cons (x : option jsstring) (names : list (option jsstring))
    (seen : gset (option jsstring)) :
  x ∉ seen →
  (NoDup names ∧ ∀ n, n ∈ names → n ∉ {[x]} ∪ seen)
  ↔ (NoDup (x :: names) ∧ ∀ n, n ∈ x :: names → n ∉ seen).
Proof.
  intros Hx. rewrite NoDup_cons. split.
  - intros [Hnd Hfresh]. split; [split; [|done]|].
    + intros Hin. apply (Hfresh _ Hin), elem_of_union_l, elem_of_singleton. done.
    + intros n [->|Hn]%elem_of_cons; [done|].
      intros HS. apply (Hfresh _ Hn), elem_of_union_r, HS.
  - intros [[Hhd Hnd] Hfresh]. split; [done|].
    intros n Hn [->%elem_of_singleton|HS]%elem_of_union; [done|].
    apply (Hfresh n); [by right | done].
Qed.







(** ** Visibility of GRPC, TCP and UDP endpoints *)

Lemma project_only_singleton (visibility : option (list jsstring)) :
  match visibility with
  | None => false
  | Some items =>
      (length items =? 1)%nat
      && match items !! 0%nat with
         | Some first => bool_decide (first = PROJECT_VISIBILITY)
         | None => false
         end
  end = true
  ↔ visibility = Some [PROJECT_VISIBILITY].
Proof.
  destruct visibility as [[|first [|second rest]]|]; simpl; try (split; done).
  rewrite bool_decide_eq_true. split; [by intros -> | by intros [= ->]].
Qed.

(** C8: for an endpoint whose type is GRPC, TCP or UDP a violation is
    reported exactly when [networkVisibilities] is not the one-element
    list [["Project"]]; for any other type, or none, the test reports
    nothing. *)
Theorem project_visibility_only_restricted_types (ep : endpoint) (path : jsstring) :
  (∀ t, type ep = Some t → t ∈ PROJECT_ONLY_TYPES →
        (is_Some (networkVisibilities_violation ep path)
         ↔ networkVisibilities ep ≠ Some [PROJECT_VISIBILITY]))
  ∧ ((∀ t, type ep = Some t → t ∉ PROJECT_ONLY_TYPES) →
     networkVisibilities_violation ep path = None).
Proof.
  unfold networkVisibilities_violation, projectVisibilityOnly.
  pose proof (project_only_singleton (networkVisibilities ep)) as Hsingle.
  destruct (match networkVisibilities ep with None => false | Some _ => _ end) eqn:E.
  - assert (networkVisibilities ep = Some [PROJECT_VISIBILITY]) as Hv by by apply Hsingle.
    rewrite andb_false_r. simpl. split.
    + intros t _ _. split; [by intros [? [=]] | done].
    + done.
  - assert (networkVisibilities ep ≠ Some [PROJECT_VISIBILITY]) as Hv.
    { intros Hv. apply Hsingle in Hv. congruence. }
    rewrite andb_true_r. split.
    + intros t -> Ht. rewrite bool_decide_eq_true_2 by done. simpl.
      split; [done | intros _; eexists; reflexivity].
    + intros Hother. destruct (type ep) as [t|]; [|done].
      rewrite bool_decide_eq_false_2 by (apply Hother; done). done.
Qed.

Lemma project_visibility_only_witness :
  (is_Some (networkVisibilities_violation (typed "GRPC" (Some [str "Public"]))
                                          (str "endpoints[0].networkVisibilities"))
   ↔ Some [str "Public"] ≠ Some [PROJECT_VISIBILITY])
  ∧ networkVisibilities_violation (typed "REST" (Some [str "Public"]))
                                  (str "endpoints[0].networkVisibilities") = None.
Proof.
  split.
  - apply (proj1 (project_visibility_only_restricted_types
                    (typed "GRPC" (Some [str "Public"]))
                    (str "endpoints[0].networkVisibilities")) (str "GRPC"));
      [reflexivity | apply (bool_decide_unpack _); vm_compute; exact I].
  - apply (proj2 (project_visibility_only_restricted_types
                    (typed "REST" (Some [str "Public"]))
                    (str "endpoints[0].networkVisibilities"))).
    intros t [= <-]. apply (bool_decide_unpack _). vm_compute. exact I.
Defined.

Example project_visibility_only_message :
  networkVisibilities_violation (typed "GRPC" (Some [str "Public"]))
                                (str "endpoints[0].networkVisibilities")
  = Some (str "The endpoints[0] is a type GRPC endpoint and can only have networkVisibility set to Project")
  ∧ networkVisibilities_violation (typed "GRPC" (Some [str "Project"]))
                                  (str "endpoints[0].networkVisibilities") = None.
Proof. split; vm_compute; reflexivity. Qed.

(** ** Sources of an environment variable *)










Example env_variable_zero_and_one_source :
  envVariableSchemaV0D1 env_no_source
  = Reported (str "One of value, connectionRef or configGroupRef must be provided")
  ∧ envVariableSchemaV0D2 env_no_source
    = Reported (str "One of value, connectionRef, configGroupRef  or configForm must be provided")
  ∧ envVariableSchemaV0D1 env_value_only = Passed
  ∧ envVariableSchemaV0D2 env_value_only = Passed.
Proof. repeat split; vm_compute; reflexivity. Qed.

Example env_variable_entries_outside_the_test :
  envVariableSchemaV0D1 VNull = NotRun
  ∧ envVariableSchemaV0D2 (VStr (str "X=1")) = NotRun
  ∧ envVariableSchemaV0D1 env_error_named = TakenForError error_named_ref
  ∧ envVariableSchemaV0D2 env_error_named = TakenForError error_named_ref.
Proof. repeat split; vm_compute; reflexivity. Qed.

(** ** The schema-file probe *)

(** C4, on the code: the probe of the validator is [fs.existsSync],
    which never throws, so the [catch] branch is never entered; an
    error of the access check underneath, whatever it is, is answered
    [false], and the violation reported is the one of a missing file. *)
Theorem schema_file_io_error_is_reported_as_missing
    (join : jsstring → jsstring → jsstring) (access : jsstring → completion unit)
    (srcDir path value : jsstring) :
  (∀ p, ∃ hasFile, fs_existsSync access p = Normal hasFile)
  ∧ (∀ error, value ≠ [] → access (join srcDir value) = Throw error →
       schemaFilePath_violation join (fs_existsSync access) srcDir path (Some value)
       = Normal (Some (schema_file_missing value))).
Proof.
  split; [intros p; by eexists|].
  intros error Hvalue Haccess. unfold schemaFilePath_violation, schemaFileExists.
  destruct value as [|c value]; [done|]. unfold fs_existsSync. by rewrite Haccess.
Qed.

Lemma schema_file_io_error_witness :
  schemaFilePath_violation app
    (fs_existsSync (λ _, Throw (Error (str "EACCES: permission denied"))))
    (str "/src/") (str "endpoints[0].schemaFilePath") (Some (str "openapi.yaml"))
  = Normal (Some (str "Schema file does not exist at the given path openapi.yaml.")).
Proof.
  apply (proj2 (schema_file_io_error_is_reported_as_missing app
                  (λ _, Throw (Error (str "EACCES: permission denied")))
                  (str "/src/") (str "endpoints[0].schemaFilePath") (str "openapi.yaml"))
           (Error (str "EACCES: permission denied"))); [discriminate | reflexivity].
Defined.

Example schema_file_missing_is_reported :
  schemaFilePath_violation app (λ _, Normal false) (str "/src/")
    (str "endpoints[0].schemaFilePath") (Some (str "openapi.yaml"))
  = Normal (Some (str "Schema file does not exist at the given path openapi.yaml."))
  ∧ schemaFilePath_violation app (λ _, Normal true) (str "/src/")
      (str "endpoints[0].schemaFilePath") (Some (str "openapi.yaml"))
    = Normal None.
Proof. split; reflexivity. Qed.

(** ** The error report *)

Lemma split_lines_not_nil (s : jsstring) : split_lines s ≠ [].
Proof.
  destruct s as [|c s]; simpl; [done|].
  destruct (split_lines s); [done|]. by destruct (c =? 10).
Qed.

Lemma split_lines_app (s t : jsstring) :
  10 ∉ s →
  split_lines (s ++ t)
  = match split_lines t with
    | [] => [s]
    | line :: lines => (s ++ line) :: lines
    end.
Proof.
  induction s as [|c s IH]; intros Hs; simpl.
  - pose proof (split_lines_not_nil t). by destruct (split_lines t).
  - apply not_elem_of_cons in Hs as [Hc Hs]. rewrite (IH Hs).
    destruct (c =? 10) eqn:E; [apply N.eqb_eq in E; congruence|].
    pose proof (split_lines_not_nil t). by destruct (split_lines t).
Qed.

Lemma split_lines_bullets (errors : list jsstring) :
  Forall (λ e, 10 ∉ e) errors →
  split_lines (concat (map bullet errors)) = [] :: map (λ e, str "- " ++ e) errors.
Proof.
  induction 1 as [|e errors He _ IH]; [reflexivity|].
  change (concat (map bullet (e :: errors)))
    with (10 :: (str "- " ++ e) ++ concat (map bullet errors)).
  assert (10 ∉ str "- " ++ e) as Hline.
  { apply not_elem_of_app. split; [|done].
    intros Hin. apply (bool_decide_pack _) in Hin. vm_compute in Hin. exact Hin. }
  cbn [split_lines]. rewrite (split_lines_app _ _ Hline), IH.
  rewrite app_nil_r. reflexivity.
Qed.

(** C5, as the code has it: with no violation the report is the
    internal-error message followed by the error as a string; with one
    violation it is the validation-failed message followed by that
    violation; with two or more it is the validation-failed message
    followed by one bullet per violation, in order, each a line break,
    the bullet mark and the violation's own text.  When no violation
    contains a line break the list part therefore splits into one line
    per violation. *)
Theorem error_report_by_number_of_violations
    (USER_ERROR INTERNAL_ERROR : jsstring) (err : exn) (fileType : jsstring) :
  let report := constructValidationErrorMessage USER_ERROR INTERNAL_ERROR err fileType in
  let failed := USER_ERROR ++ str " " ++ fileType ++ str " validation failed: " in
  (violations err = [] →
   report = INTERNAL_ERROR ++ str " Failed to validate " ++ fileType
            ++ str ", something went wrong:" ++ toString err)
  ∧ (∀ e, violations err = [e] → report = failed ++ e)
  ∧ (∀ errors, violations err = errors → (2 ≤ length errors)%nat →
       report = failed ++ concat (map bullet errors)
       ∧ (Forall (λ e, 10 ∉ e) errors →
          split_lines (concat (map bullet errors))
          = [] :: map (λ e, str "- " ++ e) errors)).
Proof.
  unfold violations, constructValidationErrorMessage. simpl.
  destruct (exn_errors err) as [[|e1 [|e2 errors]]|]; simpl.
  - split; [done|]. split; [done|]. intros ? <-. simpl. lia.
  - split; [done|]. split; [by intros ? [= <-]|]. intros ? <-. simpl. lia.
  - split; [done|]. split; [done|]. intros ? <- _.
    split; [reflexivity | apply split_lines_bullets].
  - split; [done|]. split; [done|]. intros ? <-. simpl. lia.
Qed.

Lemma error_report_witness :
  constructValidationErrorMessage (str "USER") (str "INTERNAL")
    (Error (str "boom")) (str "component.yaml")
  = str "INTERNAL Failed to validate component.yaml, something went wrong:Error: boom"
  ∧ constructValidationErrorMessage (str "USER") (str "INTERNAL")
      (Exn (str "ValidationError") (str "1 error occurred") (Some [str "port is required"]))
      (str "component.yaml")
    = str "USER component.yaml validation failed: port is required"
  ∧ (constructValidationErrorMessage (str "USER") (str "INTERNAL")
       (Exn (str "ValidationError") (str "2 errors occurred") (Some [str "a"; str "b"]))
       (str "component.yaml")
     = str "USER component.yaml validation failed: " ++ concat (map bullet [str "a"; str "b"])
     ∧ (Forall (λ e, 10 ∉ e) [str "a"; str "b"] →
        split_lines (concat (map bullet [str "a"; str "b"]))
        = [] :: map (λ e, str "- " ++ e) [str "a"; str "b"])).
Proof.
  split; [|split].
  - apply (proj1 (error_report_by_number_of_violations (str "USER") (str "INTERNAL")
                    (Error (str "boom")) (str "component.yaml"))).
    reflexivity.
  - apply (proj1 (proj2 (error_report_by_number_of_violations (str "USER") (str "INTERNAL")
                    (Exn (str "ValidationError") (str "1 error occurred")
                       (Some [str "port is required"])) (str "component.yaml")))).
    reflexivity.
  - apply (proj2 (proj2 (error_report_by_number_of_violations (str "USER") (str "INTERNAL")
                    (Exn (str "ValidationError") (str "2 errors occurred")
                       (Some [str "a"; str "b"])) (str "component.yaml")))).
    + reflexivity.
    + simpl. lia.
Defined.

(** Two violations, the first quoting a path of the document that
    contains a line break: the list part has four lines, and the second
    and third are not the text of any violation. *)
Lemma error_report_multiline_violation :
  let errors :=
    [schema_file_missing (str "a" ++ [10] ++ str "b.yaml"); str "port is a required field"] in
  constructValidationErrorMessage (str "USER") (str "INTERNAL")
    (Exn (str "ValidationError") (str "2 errors occurred") (Some errors)) (str "component.yaml")
  = str "USER component.yaml validation failed: " ++ concat (map bullet errors)
  ∧ length errors = 2%nat
  ∧ split_lines (concat (map bullet errors))
    = [[]; str "- Schema file does not exist at the given path a"; str "b.yaml.";
       str "- port is a required field"].
Proof. repeat split. Qed.

Example error_report_two_lines :
  split_lines (concat (map bullet [str "a must be b"; str "c is invalid"]))
  = [[]; str "- a must be b"; str "- c is invalid"].
Proof. reflexivity. Qed.

(** ** Dispatch on the schema version *)

Section Dispatch.
Variables USER_ERROR INTERNAL_ERROR : jsstring.
Variables COMPONENT_YAML ENDPOINT_YAML COMPONENT_CONFIG_YAML : jsstring.
Variable validate : schema → jsstring → value → completion unit.
Variable property_of_nothing : value → exn.

Lemma validateComponentYaml_default (doc : value) (srcDir : jsstring) (schemaVersion : value) :
  case_number schemaVersion lit_1_0 = false →
  case_number schemaVersion lit_1_1 = false →
  validateComponentYaml validate doc srcDir schemaVersion = ([], Throw unsupported).
Proof. intros H0 H1. unfold validateComponentYaml. rewrite H0, H1. reflexivity. Qed.

Lemma dispatch_component_yaml (doc : value) (srcDir : jsstring) :
  doc ≠ VUndefined → doc ≠ VNull →
  dispatch COMPONENT_YAML ENDPOINT_YAML COMPONENT_CONFIG_YAML validate property_of_nothing
    doc srcDir COMPONENT_YAML
  = validateComponentYaml validate doc srcDir (opt_get doc (str "schemaVersion")).
Proof.
  intros Hu Hn. unfold dispatch. rewrite decide_True by done.
  destruct doc; done.
Qed.

(** C3: a schema version that matches neither [case] makes
    [validateComponentYaml] throw at once: no schema has been run, the
    error carries no violation, and [validateSourceConfigFile] turns it
    into the internal-error report without running anything either. *)
Theorem unsupported_schema_version_is_fatal
    (doc : value) (srcDir : jsstring) (schemaVersion : value) :
  case_number schemaVersion lit_1_0 = false →
  case_number schemaVersion lit_1_1 = false →
  validateComponentYaml validate doc srcDir schemaVersion = ([], Throw unsupported)
  ∧ executed (validateComponentYaml validate doc srcDir schemaVersion).1 = []
  ∧ violations unsupported = []
  ∧ (doc ≠ VUndefined → doc ≠ VNull →
     opt_get doc (str "schemaVersion") = schemaVersion →
     validateSourceConfigFile USER_ERROR INTERNAL_ERROR
       COMPONENT_YAML ENDPOINT_YAML COMPONENT_CONFIG_YAML validate property_of_nothing
       doc srcDir COMPONENT_YAML
     = ([], Throw (Error (INTERNAL_ERROR ++ str " Failed to validate " ++ COMPONENT_YAML
                          ++ str ", something went wrong:"
                          ++ str "Error: SchemaVersion must be one of the following values: 1.0, 1.1")))).
Proof.
  intros H0 H1.
  pose proof (validateComponentYaml_default doc srcDir schemaVersion H0 H1) as Hthrow.
  rewrite Hthrow. repeat split.
  intros Hu Hn Hversion. unfold validateSourceConfigFile.
  rewrite dispatch_component_yaml, Hversion, Hthrow by done. reflexivity.
Qed.

(** C2, on the code: a document of schema version 1.2, the version that
    [schemas.js] names the latest, falls to the [default] branch; the
    v1.2 schema is run for no version at all. *)
Theorem schema_version_1_2_reaches_default (doc : value) (srcDir : jsstring) :
  LATEST_COMPONENT_YAML_SCHEMA_VERSION = lit_1_2
  ∧ validateComponentYaml validate doc srcDir (VNum lit_1_2) = ([], Throw unsupported)
  ∧ ∀ schemaVersion,
      componentYamlSchemaV1D2
      ∉ executed (validateComponentYaml validate doc srcDir schemaVersion).1.
Proof.
  split; [reflexivity|]. split; [reflexivity|].
  intros schemaVersion. unfold validateComponentYaml.
  destruct (case_number schemaVersion lit_1_0); [|destruct (case_number schemaVersion lit_1_1)];
    simpl; intros Hin.
  - apply list_elem_of_singleton in Hin. discriminate.
  - apply list_elem_of_singleton in Hin. discriminate.
  - by apply elem_of_nil in Hin.
Qed.
End Dispatch.

Lemma unsupported_schema_version_witness :
  let doc := VObj [(str "schemaVersion", VNum lit_1_3)] in
  let validate := λ (_ : schema) (_ : jsstring) (_ : value), Normal tt in
  validateComponentYaml validate doc (str "/src") (VNum lit_1_3)
  = ([], Throw (Error (str "SchemaVersion must be one of the following values: 1.0, 1.1")))
  ∧ validateSourceConfigFile (str "USER") (str "INTERNAL")
      (str "component.yaml") (str "endpoints.yaml") (str "component-config.yaml")
      validate (λ _, Exn (str "TypeError") [] None) doc (str "/src") (str "component.yaml")
    = ([], Throw (Error (str "INTERNAL Failed to validate component.yaml, something went wrong:Error: SchemaVersion must be one of the following values: 1.0, 1.1"))).
Proof.
  intros doc validate.
  pose proof (unsupported_schema_version_is_fatal (str "USER") (str "INTERNAL")
                (str "component.yaml") (str "endpoints.yaml") (str "component-config.yaml")
                validate (λ _, Exn (str "TypeError") [] None) doc (str "/src")
                (VNum lit_1_3) eq_refl eq_refl) as (H1 & _ & _ & H2).
  split; [exact H1|]. apply H2; [discriminate | discriminate | reflexivity].
Defined.

(** ** Regular expressions: [test] decides [matches] *)

Lemma matches_Void (s : jsstring) : ¬ matches Void s.
Proof. intros H. inversion H. Qed.

Lemma matches_Eps (s : jsstring) : matches Eps s ↔ s = [].
Proof. split; [intros H; by inversion H | intros ->; constructor]. Qed.

Lemma matches_Class (p : N → bool) (s : jsstring) :
  matches (Class p) s ↔ ∃ c, s = [c] ∧ p c = true.
Proof.
  split.
  - intros H. inversion H; subst. eauto.
  - intros (c & -> & Hc). by constructor.
Qed.

Lemma matches_Cat (r1 r2 : regex) (s : jsstring) :
  matches (Cat r1 r2) s ↔ ∃ s1 s2, s = s1 ++ s2 ∧ matches r1 s1 ∧ matches r2 s2.
Proof.
  split.
  - intros H. inversion H; subst. eauto.
  - intros (s1 & s2 & -> & H1 & H2). by constructor.
Qed.

Lemma matches_Alt (r1 r2 : regex) (s : jsstring) :
  matches (Alt r1 r2) s ↔ matches r1 s ∨ matches r2 s.
Proof.
  split.
  - intros H. inversion H; subst; eauto.
  - intros [H|H]; [by apply MAltL | by apply MAltR].
Qed.

Lemma matches_Star_cons (r : regex) (c : N) (s : jsstring) :
  matches (Star r) (c :: s)
  ↔ ∃ s1 s2, s = s1 ++ s2 ∧ matches r (c :: s1) ∧ matches (Star r) s2.
Proof.
  split.
  - intros H. remember (Star r) as r' eqn:Er. remember (c :: s) as w eqn:Ew.
    revert s Ew. induction H as [| | | | | |r0 s1 s2 H1 _ H2 IH2]; intros t Et; try discriminate.
    injection Er as ->. destruct s1 as [|c' s1]; simpl in Et.
    + by apply IH2.
    + injection Et as -> <-. eauto.
  - intros (s1 & s2 & -> & H1 & H2). by apply (MStarCons r (c :: s1) s2).
Qed.

Lemma nullable_matches (r : regex) : nullable r = true ↔ matches r [].
Proof.
  induction r as [| |p|r1 IH1 r2 IH2|r1 IH1 r2 IH2|r IH]; simpl.
  - split; [done | intros H; inversion H].
  - split; [intros _; constructor | done].
  - split; [done | intros H; inversion H].
  - rewrite andb_true_iff, IH1, IH2, matches_Cat. split.
    + intros [H1 H2]. by exists [], [].
    + intros (s1 & s2 & Hs & H1 & H2). symmetry in Hs.
      apply app_eq_nil in Hs as [-> ->]. done.
  - by rewrite orb_true_iff, IH1, IH2, matches_Alt.
  - split; [intros _; constructor | done].
Qed.

Lemma deriv_matches (c : N) (r : regex) (s : jsstring) :
  matches (deriv c r) s ↔ matches r (c :: s).
Proof.
  revert s. induction r as [| |p|r1 IH1 r2 IH2|r1 IH1 r2 IH2|r IH]; intros s; simpl.
  - split; intros H; inversion H.
  - split; intros H; inversion H.
  - rewrite matches_Class. destruct (p c) eqn:Hp.
    + rewrite matches_Eps. split; [intros ->; eauto | by intros (c' & [= <- ->] & _)].
    + split; [intros H; inversion H | intros (c' & [= <- ->] & Hc); congruence].
  - assert (matches (Cat (deriv c r1) r2) s
            ↔ ∃ s1 s2, s = s1 ++ s2 ∧ matches r1 (c :: s1) ∧ matches r2 s2) as Hleft.
    { rewrite matches_Cat. by setoid_rewrite IH1. }
    rewrite (matches_Cat r1 r2 (c :: s)).
    destruct (nullable r1) eqn:Hn.
    + rewrite matches_Alt, Hleft, IH2. split.
      * intros [(s1 & s2 & -> & H1 & H2)|H2].
        -- by exists (c :: s1), s2.
        -- exists [], (c :: s). by rewrite <- nullable_matches.
      * intros (s1 & s2 & Hs & H1 & H2). destruct s1 as [|c' s1]; simpl in Hs.
        -- right. by rewrite Hs.
        -- injection Hs as <- ->. left. eauto.
    + rewrite Hleft. split.
      * intros (s1 & s2 & -> & H1 & H2). by exists (c :: s1), s2.
      * intros (s1 & s2 & Hs & H1 & H2). destruct s1 as [|c' s1]; simpl in Hs.
        -- apply nullable_matches in H1. congruence.
        -- injection Hs as <- ->. eauto.
  - by rewrite !matches_Alt, IH1, IH2.
  - rewrite matches_Cat, matches_Star_cons. by setoid_rewrite IH.
Qed.

Lemma test_matches (r : regex) (s : jsstring) : test r s = true ↔ matches r s.
Proof.
  revert r. induction s as [|c s IH]; intros r; simpl.
  - apply nullable_matches.
  - by rewrite IH, deriv_matches.
Qed.

Lemma void_not_nullable (r : regex) : void r = true → nullable r = false.
Proof.
  induction r as [| |p|r1 IH1 r2 IH2|r1 IH1 r2 IH2|r IH]; simpl; try done.
  - intros [H|H]%orb_true_iff; [rewrite (IH1 H) | rewrite (IH2 H)];
      [done | apply andb_false_r].
  - intros [H1 H2]%andb_true_iff. by rewrite (IH1 H1), (IH2 H2).
Qed.

Lemma void_deriv (c : N) (r : regex) : void r = true → void (deriv c r) = true.
Proof.
  induction r as [| |p|r1 IH1 r2 IH2|r1 IH1 r2 IH2|r IH]; simpl; try done.
  - intros [H|H]%orb_true_iff.
    + rewrite (void_not_nullable _ H). simpl. by rewrite (IH1 H).
    + destruct (nullable r1); simpl; rewrite ?(IH2 H), H, ?orb_true_r; done.
  - intros [H1 H2]%andb_true_iff. by rewrite (IH1 H1), (IH2 H2).
Qed.

Lemma void_test (r : regex) (s : jsstring) : void r = true → test r s = false.
Proof.
  revert r. induction s as [|c s IH]; intros r H; simpl.
  - by apply void_not_nullable.
  - by apply IH, void_deriv.
Qed.

Lemma test_app (r : regex) (s1 s2 : jsstring) :
  test r (s1 ++ s2) = test (fold_left (λ r c, deriv c r) s1 r) s2.
Proof. revert r. induction s1 as [|c s1 IH]; intros r; simpl; [done | apply IH]. Qed.

Lemma startsWith_app (value prefix : jsstring) :
  startsWith value prefix = true ↔ ∃ rest, value = prefix ++ rest.
Proof.
  revert value. induction prefix as [|p prefix IH]; intros value; simpl.
  - split; [intros _; by exists value | by destruct value].
  - destruct value as [|c value]; simpl.
    + split; [done | by intros (rest & [=])].
    + rewrite andb_true_iff, N.eqb_eq, IH. split.
      * intros (-> & rest & ->). by exists rest.
      * intros (rest & [= -> ->]). eauto.
Qed.

(** ** The shape of the strings of the third-party pattern *)

Lemma matches_Chr (c : N) (s : jsstring) : matches (Chr c) s ↔ s = [c].
Proof.
  unfold Chr. rewrite matches_Class. split.
  - by intros (c' & -> & ->%N.eqb_eq).
  - intros ->. exists c. by rewrite N.eqb_refl.
Qed.

Lemma matches_Lit (w s : jsstring) : matches (Lit w) s ↔ s = w.
Proof.
  revert s. induction w as [|c w IH]; intros s; simpl.
  - apply matches_Eps.
  - rewrite matches_Cat. split.
    + by intros (s1 & s2 & -> & ->%matches_Chr & ->%IH).
    + intros ->. exists [c], w. by rewrite matches_Chr, IH.
Qed.

Lemma matches_Opt (r : regex) (s : jsstring) : matches (Opt r) s ↔ s = [] ∨ matches r s.
Proof. unfold Opt. by rewrite matches_Alt, matches_Eps. Qed.

Lemma matches_Star_Class (p : N → bool) (s : jsstring) :
  matches (Star (Class p)) s ↔ Forall (λ c, p c = true) s.
Proof.
  induction s as [|c s IH].
  - split; [intros _; constructor | intros _; constructor].
  - rewrite matches_Star_cons, Forall_cons, <- IH. split.
    + intros (s1 & s2 & -> & (c' & [= <- ->] & Hc)%matches_Class & Hs). done.
    + intros [Hc Hs]. exists [], s. rewrite matches_Class. eauto.
Qed.

Lemma matches_Plus_Class (p : N → bool) (s : jsstring) :
  matches (Plus (Class p)) s ↔ all_of p s.
Proof.
  unfold Plus, all_of. rewrite matches_Cat. split.
  - intros (s1 & s2 & -> & (c & -> & Hc)%matches_Class & Hs%matches_Star_Class).
    split; [done | by constructor].
  - intros [Hne Hall]. destruct Hall as [|c s Hc Hs]; [done|].
    exists [c], s. rewrite matches_Class, matches_Star_Class. eauto.
Qed.

Lemma matches_Star (r : regex) (s : jsstring) :
  matches (Star r) s ↔ ∃ ss, s = concat ss ∧ Forall (matches r) ss.
Proof.
  split.
  - intros H. remember (Star r) as r' eqn:Er.
    induction H as [| | | | | |r0 s1 s2 H1 _ H2 IH2]; try discriminate.
    + by exists [].
    + injection Er as ->. destruct (IH2 eq_refl) as (ss & -> & Hss).
      exists (s1 :: ss). split; [done | by constructor].
  - intros (ss & -> & Hss). induction Hss as [|s1 ss H1 _ IH]; simpl.
    + constructor.
    + by constructor.
Qed.

Lemma matches_dotted_version (s : jsstring) :
  matches dotted_version s
  ↔ ∃ major minors,
      s = major ++ concat (map (λ m, 46 :: m) minors)
      ∧ all_of digit major ∧ Forall (all_of digit) minors.
Proof.
  unfold dotted_version, digits. rewrite matches_Cat. split.
  - intros (major & rest & -> & Hmajor%matches_Plus_Class & (ss & -> & Hss)%matches_Star).
    exists major. induction Hss as [|group ss Hgroup _ (minors & Heq & _ & Hminors)].
    + by exists [].
    + apply matches_Cat in Hgroup as (dot & m & -> & ->%matches_Chr & Hm%matches_Plus_Class).
      exists (m :: minors). apply app_inv_head in Heq. simpl. rewrite Heq.
      split; [done|]. split; [done | by constructor].
  - intros (major & minors & -> & Hmajor & Hminors).
    exists major, (concat (map (λ m, 46 :: m) minors)). split; [done|]. rewrite matches_Plus_Class. split; [done|].
    apply matches_Star. exists (map (λ m, 46 :: m) minors). split; [done|].
    apply Forall_map. eapply Forall_impl; [exact Hminors|]. intros m Hm. simpl.
    apply matches_Cat. exists [46], m. by rewrite matches_Chr, matches_Plus_Class.
Qed.

Lemma matches_thirdparty (name_char : N → bool) (s : jsstring) :
  matches (Seq [Lit (str "thirdparty:"); Plus (Class name_char); Chr 47;
                Class v_char; dotted_version]) s
  ↔ thirdparty_shape name_char s.
Proof.
  unfold thirdparty_shape. cbn [Seq]. split.
  - intros (s1 & t1 & -> & ->%matches_Lit
            & (name & t2 & -> & Hname%matches_Plus_Class
               & (s3 & t3 & -> & ->%matches_Chr
                  & (s4 & t4 & -> & (v & -> & Hv)%matches_Class
                     & (major & minors & -> & Hmajor & Hminors)%matches_dotted_version
                    )%matches_Cat)%matches_Cat)%matches_Cat)%matches_Cat.
    exists name, v, major, minors. split; [done|]. split; [done|].
    split; [|done]. unfold v_char in Hv.
    apply orb_true_iff in Hv as [->%N.eqb_eq| ->%N.eqb_eq]; auto.
  - intros (name & v & major & minors & -> & Hname & Hv & Hmajor & Hminors).
    apply matches_Cat. do 2 eexists. split; [reflexivity|].
    rewrite matches_Lit. split; [done|].
    apply matches_Cat. do 2 eexists. split; [reflexivity|].
    rewrite matches_Plus_Class. split; [done|].
    apply matches_Cat. do 2 eexists. split; [reflexivity|].
    rewrite matches_Chr. split; [done|].
    apply matches_Cat. do 2 eexists. split; [reflexivity|]. split.
    + apply matches_Class. exists v. split; [done|]. by destruct Hv as [-> | ->].
    + apply matches_dotted_version. by exists major, minors.
Qed.

(** ** The two classifiers on third-party references *)

Lemma runTest_or_error (message error : jsstring) (flag : bool) :
  runTest message (or_error flag error) = (if flag then None else Some error).
Proof. by destruct flag. Qed.

Lemma thirdparty_branch (value path : jsstring) :
  startsWith value (str "thirdparty:") = true →
  serviceName_violation value path
  = (if test thirdPartySvcRefNameRegex value then None
     else Some (invalid_identifier path ++ thirdparty_format))
  ∧ resourceRef_violation value path
    = (if test thirdPartySvcRefNameRegex value then None
       else Some (invalid_identifier path ++ thirdparty_format)).
Proof.
  intros Hprefix. pose proof Hprefix as (rest & ->)%startsWith_app.
  unfold serviceName_violation, resourceRef_violation, validateServiceName,
    validateResourceRef, test_or_error.
  rewrite Hprefix.
  change (startsWith (str "thirdparty:" ++ rest) (str "choreo:///")) with false.
  change (startsWith (str "thirdparty:" ++ rest) (str "service:")) with false.
  cbv iota. by rewrite runTest_or_error.
Qed.

Lemma spec_name_char_allowed (c : N) :
  spec_name_char c = true → thirdparty_name_char c = true.
Proof.
  unfold spec_name_char, thirdparty_name_char, whitespace.
  destruct (lower c), (upper c), (digit c), (c =? 95), (c =? 46), (c =? 45);
    simpl; rewrite ?orb_true_r, ?orb_false_r; try done.
  intros ->%N.eqb_eq. reflexivity.
Qed.

Lemma spec_shape_allowed (value : jsstring) :
  thirdparty_shape spec_name_char value → thirdparty_shape thirdparty_name_char value.
Proof.
  intros (name & v & major & minors & -> & [Hne Hname] & Hrest).
  exists name, v, major, minors. split; [done|]. split; [|done].
  split; [done|]. eapply Forall_impl; [exact Hname|]. apply spec_name_char_allowed.
Qed.

(** C9, as the code has it: a string that starts with [thirdparty:] is
    accepted by both classifiers exactly when it is [thirdparty:], a
    non-empty name of alphanumerics, [\s] white space, [_], [.] and [-], a
    slash, [v] or [V], and dot-separated groups of digits; every string of
    the grammar of the specification is among them;
    [thirdparty:Stripe API/v2.1] is accepted and
    [thirdparty:Stripe API/2.1] is not. *)
Theorem thirdparty_reference_grammar :
  (∀ value path : jsstring,
      startsWith value (str "thirdparty:") = true →
      (serviceName_violation value path = None
       ↔ thirdparty_shape thirdparty_name_char value)
      ∧ (resourceRef_violation value path = None
         ↔ thirdparty_shape thirdparty_name_char value)
      ∧ (test spec_thirdparty value = true →
         serviceName_violation value path = None
         ∧ resourceRef_violation value path = None))
  ∧ (∀ path : jsstring,
        serviceName_violation (str "thirdparty:Stripe API/v2.1") path = None
        ∧ resourceRef_violation (str "thirdparty:Stripe API/v2.1") path = None
        ∧ is_Some (serviceName_violation (str "thirdparty:Stripe API/2.1") path)
        ∧ is_Some (resourceRef_violation (str "thirdparty:Stripe API/2.1") path)).
Proof.
  split.
  - intros value path Hprefix.
    destruct (thirdparty_branch value path Hprefix) as [-> ->].
    assert (test thirdPartySvcRefNameRegex value = true
            ↔ thirdparty_shape thirdparty_name_char value) as Hshape.
    { rewrite test_matches. apply matches_thirdparty. }
    assert (∀ message : jsstring,
              (if test thirdPartySvcRefNameRegex value then None else Some message) = None
              ↔ thirdparty_shape thirdparty_name_char value) as Hnone.
    { intros message. rewrite <- Hshape.
      by destruct (test thirdPartySvcRefNameRegex value). }
    split; [apply Hnone|]. split; [apply Hnone|].
    intros Hspec. apply test_matches, matches_thirdparty, spec_shape_allowed in Hspec.
    split; by apply Hnone.
  - intros path. repeat split; try reflexivity; eexists; reflexivity.
Qed.

Lemma thirdparty_reference_witness :
  (serviceName_violation (str "thirdparty:Stripe API/v2.1") (str "name") = None
   ↔ thirdparty_shape thirdparty_name_char (str "thirdparty:Stripe API/v2.1"))
  ∧ (resourceRef_violation (str "thirdparty:Stripe API/v2.1") (str "name") = None
     ↔ thirdparty_shape thirdparty_name_char (str "thirdparty:Stripe API/v2.1")).
Proof.
  pose proof (proj1 thirdparty_reference_grammar (str "thirdparty:Stripe API/v2.1")
                (str "name") eq_refl) as (H1 & H2 & _).
  exact (conj H1 H2).
Defined.

(** A tab in the name: outside the grammar of the specification, inside
    the pattern of the source. *)
Lemma thirdparty_tab_in_name_accepted :
  let value := str "thirdparty:a" ++ [9] ++ str "b/v1" in
  startsWith value (str "thirdparty:") = true
  ∧ test spec_thirdparty value = false
  ∧ serviceName_violation value (str "name") = None
  ∧ resourceRef_violation value (str "resourceRef") = None.
Proof. repeat split; vm_compute; reflexivity. Qed.

(** ** Service names have no unprefixed form *)

Lemma choreo_prefix_not_a_resource (rest : jsstring) :
  test svcRefNameRegex (str "choreo:///" ++ rest) = false.
Proof. rewrite test_app. apply void_test. vm_compute. reflexivity. Qed.

(** C10: a name that starts with none of [choreo:///], [thirdparty:] and
    [database:] is reported by the service-name classifier with the
    message that only those three types are allowed; in particular so is
    every string that the resource-reference classifier accepts through
    its generic, unprefixed branch. *)
Theorem service_name_has_no_unprefixed_form (value path : jsstring) :
  (startsWith value (str "choreo:///") = false →
   startsWith value (str "thirdparty:") = false →
   startsWith value (str "database:") = false →
   serviceName_violation value path = Some (only_three_types path))
  ∧ (startsWith value (str "service:") = false →
     startsWith value (str "thirdparty:") = false →
     startsWith value (str "database:") = false →
     resourceRef_violation value path = None →
     serviceName_violation value path = Some (only_three_types path)).
Proof.
  assert (startsWith value (str "choreo:///") = false →
          startsWith value (str "thirdparty:") = false →
          startsWith value (str "database:") = false →
          serviceName_violation value path = Some (only_three_types path)) as Hfirst.
  { intros Hc Ht Hd. unfold serviceName_violation, validateServiceName.
    rewrite Hc, Ht, Hd. reflexivity. }
  split; [exact Hfirst|].
  intros Hs Ht Hd Haccepted. apply Hfirst; [|done|done].
  unfold resourceRef_violation, validateResourceRef, test_or_error in Haccepted.
  rewrite Hs, Ht, Hd, runTest_or_error in Haccepted.
  destruct (startsWith value (str "choreo:///")) eqn:Hc; [|done].
  apply startsWith_app in Hc as (rest & ->).
  rewrite choreo_prefix_not_a_resource in Haccepted. discriminate.
Qed.

Lemma service_name_unprefixed_witness :
  resourceRef_violation (str "comp/v1") (str "name") = None
  ∧ serviceName_violation (str "comp/v1") (str "name")
    = Some (str "name has an invalid service identifier. It can only contain choreo, thirdparty, or database types.")
  ∧ serviceName_violation (str "service:comp/v1") (str "name")
    = Some (only_three_types (str "name")).
Proof.
  split; [reflexivity|]. split.
  - apply (proj2 (service_name_has_no_unprefixed_form (str "comp/v1") (str "name")));
      reflexivity.
  - apply (proj1 (service_name_has_no_unprefixed_form (str "service:comp/v1") (str "name")));
      reflexivity.
Defined.

Example identifier_table :
  serviceName_violation (str "choreo:///org/proj/comp/ep/v1/PUBLIC") (str "name") = None
  ∧ is_Some (serviceName_violation (str "choreo:///org/proj/comp/ep/v1/INVALID_VIS") (str "name"))
  ∧ serviceName_violation (str "database:primary/orders") (str "name") = None
  ∧ is_Some (serviceName_violation (str "database:") (str "name"))
  ∧ resourceRef_violation (str "service:/proj/comp/v1/ep/PUBLIC") (str "resourceRef") = None
  ∧ resourceRef_violation (str "comp/1.2.3") (str "resourceRef") = None.
Proof. repeat split; try reflexivity; eexists; reflexivity. Qed.

(** * Further properties *)

(** ** Uniqueness of environment-variable names *)

Lemma every_new_env_prefix (name_of_null : exn) (pre : list envVariable)
    (rest : list (option envVariable)) (seen : gset (option jsstring)) :
  let names := env_name <$> pre in
  let fresh := NoDup names ∧ ∀ n, n ∈ names → n ∉ seen in
  (fresh ∧ ∃ seen', every_new_env name_of_null seen ((Some <$> pre) ++ rest)
                    = every_new_env name_of_null seen' rest)
  ∨ (¬ fresh ∧ every_new_env name_of_null seen ((Some <$> pre) ++ rest) = Normal false).
Proof.
  revert seen. induction pre as [|env pre IH]; intros seen; simpl.
  - left. split; [split; [constructor | by intros n ?%elem_of_nil] | by exists seen].
  - destruct (decide (env_name env ∈ seen)) as [Hin|Hout].
    + right. split; [|done]. intros [_ Hfresh]. apply (Hfresh (env_name env)); [constructor | done].
    + destruct (IH ({[env_name env]} ∪ seen)) as [[Hfresh Hrest]|[Hdup Hfalse]].
      * left. split; [by apply fresh_cons | done].
      * right. split; [|done]. intros Hfresh. by apply Hdup, fresh_cons.
Qed.

Lemma every_new_env_all (name_of_null : exn) (envs : list envVariable) :
  (NoDup (env_name <$> envs)
   ∧ every_new_env name_of_null ∅ (Some <$> envs) = Normal true)
  ∨ (¬ NoDup (env_name <$> envs)
     ∧ every_new_env name_of_null ∅ (Some <$> envs) = Normal false).
Proof.
  pose proof (every_new_env_prefix name_of_null envs [] ∅) as H.
  rewrite app_nil_r in H. simpl in H.
  destruct H as [[[Hnd _] [seen' ->]]|[Hdup ->]]; [by left | right].
  split; [|done]. intros Hnd. apply Hdup. split; [done|].
  intros n _. apply not_elem_of_empty.
Qed.

(** On an array without [null] elements the test of [env] reports
    nothing exactly when the names are pairwise distinct, and otherwise
    reports the single violation that names must be unique; it never
    throws. *)
Theorem env_variable_names_unique (name_of_null : exn) (envs : list envVariable)
    (path : jsstring) :
  (env_violation name_of_null (Some (Some <$> envs)) path = Normal None
   ↔ NoDup (env_name <$> envs))
  ∧ (env_violation name_of_null (Some (Some <$> envs)) path
     = Normal (Some (str "Environment variable names must be unique"))
     ↔ ¬ NoDup (env_name <$> envs))
  ∧ env_violation name_of_null None path = Normal None.
Proof.
  unfold env_violation, checkEnvVariableUniqueness.
  destruct (every_new_env_all name_of_null envs) as [[Hnd ->]|[Hdup ->]]; simpl.
  - split; [done|]. split; [|done]. split; [done | by intros H].
  - split; [|done]. split; [done | by intros H].
Qed.

(** A [null] element makes the test throw when the names before it are
    pairwise distinct; when two of them coincide the duplicate is
    reported first and the [null] element is never read. *)
Theorem env_variable_null_element (name_of_null : exn) (pre : list envVariable)
    (post : list (option envVariable)) (path : jsstring) :
  (NoDup (env_name <$> pre) →
   env_violation name_of_null (Some ((Some <$> pre) ++ None :: post)) path
   = Throw name_of_null)
  ∧ (¬ NoDup (env_name <$> pre) →
     env_violation name_of_null (Some ((Some <$> pre) ++ None :: post)) path
     = Normal (Some (str "Environment variable names must be unique"))).
Proof.
  unfold env_violation, checkEnvVariableUniqueness.
  destruct (every_new_env_prefix name_of_null pre (None :: post) ∅)
    as [[[Hnd _] [seen' ->]]|[Hdup ->]]; simpl.
  - split; [done | by intros H].
  - split; [|done]. intros Hnd. exfalso. apply Hdup. split; [done|].
    intros n _. apply not_elem_of_empty.
Qed.

Lemma env_variable_null_element_witness :
  let type_error := Exn (str "TypeError") (str "Cannot read properties of null") None in
  env_violation type_error
    (Some ((Some <$> [{| env_name := Some (str "A") |}; {| env_name := Some (str "B") |}])
           ++ None :: [])) (str "env")
  = Throw type_error
  ∧ env_violation type_error
      (Some ((Some <$> [{| env_name := Some (str "A") |}; {| env_name := Some (str "A") |}])
             ++ None :: [])) (str "env")
    = Normal (Some (str "Environment variable names must be unique")).
Proof.
  intros type_error. split.
  - apply (proj1 (env_variable_null_element type_error
                    [{| env_name := Some (str "A") |}; {| env_name := Some (str "B") |}]
                    [] (str "env"))).
    apply (bool_decide_unpack _). vm_compute. exact I.
  - apply (proj2 (env_variable_null_element type_error
                    [{| env_name := Some (str "A") |}; {| env_name := Some (str "A") |}]
                    [] (str "env"))).
    apply (bool_decide_unpack _). vm_compute. exact I.
Defined.

(** ** Field patterns *)

Lemma validate_string_nil (chain : list YupString.string_test) (path : jsstring)
    (v : option jsstring) :
  YupString.validate_string chain path v = []
  ↔ Forall (λ t, YupString.passes v t = true) chain.
Proof.
  unfold YupString.validate_string. induction chain as [|t chain IH]; simpl.
  - split; [intros _; constructor | done].
  - rewrite Forall_cons. destruct (YupString.passes v t); simpl.
    + rewrite IH. split; [done | by intros [_ ?]].
    + split; [done | by intros [? _]].
Qed.

Lemma matches_first_then_class (first rest_char : N → bool) (s : jsstring) :
  test (Cat (Class first) (Star (Class rest_char))) s = true
  ↔ ∃ c rest, s = c :: rest ∧ first c = true ∧ Forall (λ x, rest_char x = true) rest.
Proof.
  rewrite test_matches, matches_Cat. split.
  - intros (s1 & s2 & -> & (c & -> & Hc)%matches_Class & Hrest%matches_Star_Class).
    by exists c, s2.
  - intros (c & rest & -> & Hc & Hrest). exists [c], rest.
    rewrite matches_Class, matches_Star_Class. eauto.
Qed.

(** An endpoint name of schema v0.2 passes its chain exactly when it is
    present, starts with a lowercase letter, continues with lowercase
    letters, digits, [_] and [-] only, and has at most 50 code units. *)
Theorem endpoint_name_shape (path : jsstring) (name : option jsstring) :
  endpointSchemaV0D2_name path name = []
  ↔ ∃ c rest,
      name = Some (c :: rest) ∧ lower c = true
      ∧ Forall (λ x, name_char x = true) rest ∧ (length rest < 50)%nat.
Proof.
  unfold endpointSchemaV0D2_name. rewrite validate_string_nil, !Forall_cons.
  destruct name as [[|c rest]|]; simpl.
  - split; [by intros [? _] | by intros (? & ? & ? & _)].
  - unfold name_regex. rewrite (matches_first_then_class lower name_char (c :: rest)).
    rewrite Nat.leb_le. split.
    + intros (_ & Hlen & (c' & rest' & [= <- <-] & Hc & Hrest) & _).
      exists c, rest. repeat split; [done | done | simpl in Hlen; lia].
    + intros (c' & rest' & [= <- <-] & Hc & Hrest & Hlen).
      repeat split; [simpl; lia | by exists c, rest | constructor].
  - split; [by intros [? _] | by intros (? & ? & ? & _)].
Qed.

(** The name of an environment variable passes its chain exactly when it
    is present, starts with a letter or [_] and continues with letters,
    digits and [_] only; there is no bound on its length. *)
Theorem env_variable_name_shape (path : jsstring) (name : option jsstring) :
  envVariableSchema_name path name = []
  ↔ ∃ c rest,
      name = Some (c :: rest) ∧ env_first_char c = true
      ∧ Forall (λ x, env_char x = true) rest.
Proof.
  unfold envVariableSchema_name. rewrite validate_string_nil, !Forall_cons.
  destruct name as [[|c rest]|]; simpl.
  - split; [by intros [? _] | by intros (? & ? & ? & _)].
  - unfold env_name_regex.
    rewrite (matches_first_then_class env_first_char env_char (c :: rest)). split.
    + intros (_ & (c' & rest' & [= <- <-] & Hc & Hrest) & _). by exists c, rest.
    + intros (c' & rest' & [= <- <-] & Hc & Hrest).
      repeat split; [by exists c, rest | constructor].
  - split; [by intros [? _] | by intros (? & ? & ? & _)].
Qed.

Lemma path_pattern (s : jsstring) :
  test path_regex s = true ↔ ∃ rest, s = 47 :: rest ∧ Forall (λ x, path_char x = true) rest.
Proof.
  unfold path_regex, Chr. rewrite (matches_first_then_class (N.eqb 47) path_char s). split.
  - intros (c & rest & -> & <-%N.eqb_eq & Hrest). by exists rest.
  - intros (rest & -> & Hrest). by exists 47, rest.
Qed.

(** [basePath] is optional, but when present it must start with a slash
    and continue with alphanumerics, [/], [-] and [_] only; the empty
    string is reported. *)
Theorem base_path_shape (path : jsstring) (basePath : option jsstring) :
  (serviceSchema_basePath path basePath = []
   ↔ basePath = None
     ∨ ∃ rest, basePath = Some (47 :: rest) ∧ Forall (λ x, path_char x = true) rest)
  ∧ serviceSchema_basePath path (Some []) = [YupString.reported (basePath_message path)].
Proof.
  split; [|reflexivity].
  unfold serviceSchema_basePath. rewrite validate_string_nil, !Forall_cons.
  destruct basePath as [s|]; simpl.
  - rewrite path_pattern. split.
    + intros [(rest & -> & Hrest) _]. right. by exists rest.
    + intros [|(rest & [= ->] & Hrest)]; [done|]. split; [by exists rest | constructor].
  - split; [by left | by split; [|constructor]].
Qed.

Lemma contextRequired_violation (value type : option jsstring) (path : jsstring) :
  runTest (default_message path) (contextRequired value type path)
  = if match type with
       | None => false
       | Some t => bool_decide (t ∈ BASE_PATH_REQUIRED_TYPES)
       end
       && match value with None | Some [] => true | Some _ => false end
    then Some (path ++ str " is required for " ++ default [] type ++ str "-type endpoints")
    else None.
Proof. unfold contextRequired. by destruct (_ && _). Qed.

(** The [context] of a v0.1 endpoint is accepted exactly when it is a
    slash followed by alphanumerics, [/], [-] and [_], or when it is
    absent and the type is not REST, GraphQL or WS. *)
Theorem context_accepted (path : jsstring) (type context : option jsstring) :
  endpointSchemaV0D1_context path type context = []
  ↔ (∃ rest, context = Some (47 :: rest) ∧ Forall (λ x, path_char x = true) rest)
    ∨ (context = None ∧ ∀ t, type = Some t → t ∉ BASE_PATH_REQUIRED_TYPES).
Proof.
  unfold endpointSchemaV0D1_context. rewrite contextRequired_violation.
  rewrite app_nil, validate_string_nil, Forall_cons, (and_comm (_ ∧ _)).
  destruct context as [[|c rest]|]; cbn [YupString.passes].
  - simpl. rewrite andb_true_r. split.
    + by intros [_ [? _]].
    + intros [(? & ? & _)|[? _]]; done.
  - rewrite andb_false_r, path_pattern. split.
    + intros [_ [(rest' & [= -> <-] & Hrest) _]]. left. by exists rest.
    + intros [(rest' & [= -> <-] & Hrest)|[? _]]; [|done].
      split; [done|]. split; [by exists rest | constructor].
  - rewrite andb_true_r. destruct type as [t|]; simpl.
    + destruct (decide (t ∈ BASE_PATH_REQUIRED_TYPES)) as [Hin|Hout].
      * rewrite bool_decide_eq_true_2 by done. split; [by intros [? _]|].
        intros [(? & ? & _)|[_ Hno]]; [done|]. by destruct (Hno t eq_refl).
      * rewrite bool_decide_eq_false_2 by done. split.
        -- intros _. right. split; [done|]. by intros ? [= <-].
        -- intros _. split; [done|]. split; [done | constructor].
    + split.
      * intros _. right. split; [done|]. by intros ? [=].
      * intros _. split; [done|]. split; [done | constructor].
Qed.



(** ** The schema-file probe: what decides the outcome *)

(** An absent or empty [schemaFilePath] is valid whatever the probe
    would answer; for any other path the answer of the probe decides:
    no violation when the file exists, and otherwise the violation that
    quotes the path as it is written in the document. *)
Theorem schema_file_existence_decides
    (join : jsstring → jsstring → jsstring) (existsSync : jsstring → completion bool)
    (srcDir path : jsstring) :
  schemaFilePath_violation join existsSync srcDir path None = Normal None
  ∧ schemaFilePath_violation join existsSync srcDir path (Some []) = Normal None
  ∧ ∀ (value : jsstring) (hasFile : bool),
      value ≠ [] → existsSync (join srcDir value) = Normal hasFile →
      schemaFilePath_violation join existsSync srcDir path (Some value)
      = Normal (if hasFile then None else Some (schema_file_missing value)).
Proof.
  split; [reflexivity|]. split; [reflexivity|].
  intros value hasFile Hvalue Hprobe.
  unfold schemaFilePath_violation, schemaFileExists.
  destruct value as [|c value]; [done|]. rewrite Hprobe. by destruct hasFile.
Qed.

Lemma schema_file_existence_witness :
  schemaFilePath_violation app (λ p, Normal (bool_decide (p = str "/src/openapi.yaml")))
    (str "/src/") (str "endpoints[0].schemaFilePath") (Some (str "openapi.yaml"))
  = Normal None
  ∧ schemaFilePath_violation app (λ p, Normal (bool_decide (p = str "/src/openapi.yaml")))
      (str "/src/") (str "endpoints[0].schemaFilePath") (Some (str "missing.yaml"))
    = Normal (Some (schema_file_missing (str "missing.yaml"))).
Proof.
  split.
  - apply (proj2 (proj2 (schema_file_existence_decides app
            (λ p, Normal (bool_decide (p = str "/src/openapi.yaml")))
            (str "/src/") (str "endpoints[0].schemaFilePath")))
            (str "openapi.yaml") true); [discriminate | reflexivity].
  - apply (proj2 (proj2 (schema_file_existence_decides app
            (λ p, Normal (bool_decide (p = str "/src/openapi.yaml")))
            (str "/src/") (str "endpoints[0].schemaFilePath")))
            (str "missing.yaml") false); [discriminate | reflexivity].
Defined.

(** The validator consults the probe at the joined path of the field and
    nowhere else: two probes that agree there give the same outcome. *)
Theorem schema_file_probe_is_local
    (join : jsstring → jsstring → jsstring) (probe1 probe2 : jsstring → completion bool)
    (srcDir path : jsstring) (value : option jsstring) :
  (∀ v, value = Some v → probe1 (join srcDir v) = probe2 (join srcDir v)) →
  schemaFilePath_violation join probe1 srcDir path value
  = schemaFilePath_violation join probe2 srcDir path value.
Proof.
  intros Hagree. unfold schemaFilePath_violation, schemaFileExists.
  destruct value as [[|c v]|]; [done| |done]. by rewrite (Hagree (c :: v)).
Qed.

Lemma schema_file_probe_is_local_witness :
  schemaFilePath_violation app (λ p, Normal (bool_decide (p = str "/src/a.yaml")))
    (str "/src/") (str "schemaFilePath") (Some (str "a.yaml"))
  = schemaFilePath_violation app (λ _, Normal true)
      (str "/src/") (str "schemaFilePath") (Some (str "a.yaml")).
Proof.
  apply (schema_file_probe_is_local app
           (λ p, Normal (bool_decide (p = str "/src/a.yaml"))) (λ _, Normal true)
           (str "/src/") (str "schemaFilePath") (Some (str "a.yaml"))).
  intros v [= <-]. reflexivity.
Defined.

(** ** The message of the visibility restriction *)

Lemma before_dot_app (e rest : jsstring) :
  46 ∉ e → before_dot (e ++ 46 :: rest) = e.
Proof.
  induction e as [|c e IH]; intros He; simpl; [done|].
  apply not_elem_of_cons in He as [Hc He].
  destruct (c =? 46) eqn:E; [apply N.eqb_eq in E; congruence|].
  by rewrite IH.
Qed.

(** The violation of the visibility restriction names the endpoint by
    the part of the field path before its first full stop and quotes the
    type of the endpoint. *)
Theorem project_visibility_message_names_endpoint
    (ep : endpoint) (erroredEndpoint field t : jsstring) :
  erroredEndpoint ≠ [] → 46 ∉ erroredEndpoint →
  type ep = Some t → t ∈ PROJECT_ONLY_TYPES →
  networkVisibilities ep ≠ Some [PROJECT_VISIBILITY] →
  networkVisibilities_violation ep (erroredEndpoint ++ 46 :: field)
  = Some (str "The " ++ erroredEndpoint ++ str " is a type " ++ t
          ++ str " endpoint and can only have networkVisibility set to Project").
Proof.
  intros Hne Hdot Htype Ht Hvis.
  unfold networkVisibilities_violation, projectVisibilityOnly.
  pose proof (project_only_singleton (networkVisibilities ep)) as Hsingle.
  destruct (match networkVisibilities ep with None => false | Some _ => _ end) eqn:E.
  - exfalso. by apply Hvis, Hsingle.
  - rewrite Htype, bool_decide_eq_true_2 by done. simpl.
    rewrite before_dot_app by done. by destruct erroredEndpoint.
Qed.

Lemma project_visibility_message_witness :
  networkVisibilities_violation (typed "UDP" None) (str "endpoints[3]" ++ 46 :: str "networkVisibilities")
  = Some (str "The " ++ str "endpoints[3]" ++ str " is a type " ++ str "UDP"
          ++ str " endpoint and can only have networkVisibility set to Project").
Proof.
  apply (project_visibility_message_names_endpoint (typed "UDP" None)
           (str "endpoints[3]") (str "networkVisibilities") (str "UDP")).
  - discriminate.
  - apply (bool_decide_unpack _). vm_compute. exact I.
  - reflexivity.
  - apply (bool_decide_unpack _). vm_compute. exact I.
  - discriminate.
Defined.

(** ** Database and choreo references *)

Lemma matches_handle (s : jsstring) : matches alphanumericRegex s ↔ handle s.
Proof. apply matches_Plus_Class. Qed.

Lemma matches_number_group (s : jsstring) : matches digits s ↔ number_group s.
Proof. apply matches_Plus_Class. Qed.

Lemma matches_Opt_part (r : regex) (prefix suffix : jsstring) (P : jsstring → Prop)
    (s : jsstring) :
  (∀ x, matches r x ↔ ∃ text, x = prefix ++ text ++ suffix ∧ P text) →
  matches (Opt r) s ↔ ∃ part, s = optional prefix part suffix ∧ if_present P part.
Proof.
  intros Hr. rewrite matches_Opt. split.
  - intros [->|(text & -> & Htext)%Hr].
    + by exists None.
    + exists (Some text). split; [done|]. by intros ? [= <-].
  - intros ([text|] & -> & Hpart); [right | by left].
    apply Hr. exists text. split; [done|]. by apply Hpart.
Qed.

Lemma matches_visibility (s : jsstring) : matches visibility_alt s ↔ s ∈ visibilities.
Proof.
  unfold visibility_alt, visibilities.
  rewrite !matches_Alt, !matches_Lit, !elem_of_cons, elem_of_nil. tauto.
Qed.

Lemma database_branch (value path : jsstring) :
  startsWith value (str "database:") = true →
  serviceName_violation value path
  = (if test dbSvcRefNameRegex value then None
     else Some (invalid_identifier path ++ database_format))
  ∧ resourceRef_violation value path
    = (if test dbSvcRefNameRegex value then None
       else Some (invalid_identifier path ++ database_format)).
Proof.
  intros Hprefix. pose proof Hprefix as (rest & ->)%startsWith_app.
  unfold serviceName_violation, resourceRef_violation, validateServiceName,
    validateResourceRef, test_or_error.
  rewrite Hprefix.
  change (startsWith (str "database:" ++ rest) (str "choreo:///")) with false.
  change (startsWith (str "database:" ++ rest) (str "thirdparty:")) with false.
  change (startsWith (str "database:" ++ rest) (str "service:")) with false.
  cbv iota. by rewrite runTest_or_error.
Qed.

Lemma matches_database (s : jsstring) :
  matches dbSvcRefNameRegex s
  ↔ ∃ server database,
      s = str "database:" ++ optional [] server [47] ++ database
      ∧ if_present handle server ∧ handle database.
Proof.
  unfold dbSvcRefNameRegex. cbn [Seq]. rewrite matches_Cat.
  assert (∀ x, matches (Cat alphanumericRegex (Chr 47)) x
               ↔ ∃ text, x = [] ++ text ++ [47] ∧ handle text) as Hserver.
  { intros x. rewrite matches_Cat. split.
    - intros (s1 & s2 & -> & Hs1%matches_handle & ->%matches_Chr). by exists s1.
    - intros (text & -> & Htext). exists text, [47].
      by rewrite matches_handle, matches_Chr. }
  split.
  - intros (s1 & s2 & -> & ->%matches_Lit
            & (s3 & s4 & -> & (server & -> & Hserver')%(matches_Opt_part _ _ _ _ _ Hserver)
               & Hdb%matches_handle)%matches_Cat).
    by exists server, s4.
  - intros (server & database & -> & Hs & Hdb). do 2 eexists. split; [reflexivity|].
    rewrite matches_Lit. split; [done|]. apply matches_Cat. do 2 eexists.
    split; [reflexivity|]. rewrite matches_handle. split; [|done].
    apply (matches_Opt_part _ _ _ _ _ Hserver). by exists server.
Qed.

(** A string that starts with [database:] is accepted, by both
    classifiers alike, exactly when it continues with an optional server
    handle and a slash, and then a database handle; the database handle
    cannot be empty. *)
Theorem database_reference_shape (value path : jsstring) :
  startsWith value (str "database:") = true →
  let shape :=
    ∃ server database,
      value = str "database:" ++ optional [] server [47] ++ database
      ∧ if_present handle server ∧ handle database in
  (serviceName_violation value path = None ↔ shape)
  ∧ (resourceRef_violation value path = None ↔ shape).
Proof.
  intros Hprefix shape. destruct (database_branch value path Hprefix) as [-> ->].
  assert (test dbSvcRefNameRegex value = true ↔ shape) as Hshape.
  { rewrite test_matches. apply matches_database. }
  rewrite <- Hshape. by destruct (test dbSvcRefNameRegex value).
Qed.

Lemma database_reference_witness :
  (serviceName_violation (str "database:primary/orders") (str "name") = None
   ↔ ∃ server database,
       str "database:primary/orders" = str "database:" ++ optional [] server [47] ++ database
       ∧ if_present handle server ∧ handle database)
  ∧ (resourceRef_violation (str "database:primary/orders") (str "name") = None
     ↔ ∃ server database,
         str "database:primary/orders" = str "database:" ++ optional [] server [47] ++ database
         ∧ if_present handle server ∧ handle database).
Proof.
  apply (database_reference_shape (str "database:primary/orders") (str "name")).
  reflexivity.
Defined.

Lemma choreo_branch (value path : jsstring) :
  startsWith value (str "choreo:///") = true →
  serviceName_violation value path
  = (if test choreoSvcRefNameRegex value then None
     else Some (invalid_identifier path ++ choreo_format)).
Proof.
  intros Hprefix. unfold serviceName_violation, validateServiceName, test_or_error.
  rewrite Hprefix. by rewrite runTest_or_error.
Qed.

Lemma matches_major_minor (s : jsstring) :
  matches major_minor s
  ↔ ∃ major minor,
      s = major ++ optional [46] minor [] ∧ number_group major ∧ if_present number_group minor.
Proof.
  unfold major_minor. rewrite matches_Cat.
  assert (∀ x, matches (Cat (Chr 46) digits) x
               ↔ ∃ text, x = [46] ++ text ++ [] ∧ number_group text) as Hminor.
  { intros x. rewrite matches_Cat. split.
    - intros (s1 & s2 & -> & ->%matches_Chr & Hs2%matches_number_group).
      exists s2. by rewrite app_nil_r.
    - intros (text & -> & Htext). exists [46], text.
      by rewrite app_nil_r, matches_Chr, matches_number_group. }
  split.
  - intros (major & s2 & -> & Hmajor%matches_number_group
            & (minor & -> & Hm)%(matches_Opt_part _ _ _ _ _ Hminor)).
    by exists major, minor.
  - intros (major & minor & -> & Hmajor & Hm). do 2 eexists. split; [reflexivity|].
    rewrite matches_number_group. split; [done|].
    apply (matches_Opt_part _ _ _ _ _ Hminor). by exists minor.
Qed.

Lemma matches_choreo (s : jsstring) :
  matches choreoSvcRefNameRegex s
  ↔ ∃ org project component endpoint major minor visibility,
      s = str "choreo:///" ++ org ++ [47] ++ project ++ [47] ++ component ++ [47]
          ++ endpoint ++ [47] ++ [118] ++ (major ++ optional [46] minor []) ++ [47]
          ++ visibility
      ∧ handle org ∧ handle project ∧ handle component ∧ handle endpoint
      ∧ number_group major ∧ if_present number_group minor
      ∧ visibility ∈ visibilities.
Proof.
  unfold choreoSvcRefNameRegex. cbn [Seq]. split.
  - intros (? & ? & -> & ->%matches_Lit
      & (org & ? & -> & Horg%matches_handle
      & (? & ? & -> & ->%matches_Chr
      & (project & ? & -> & Hproject%matches_handle
      & (? & ? & -> & ->%matches_Chr
      & (component & ? & -> & Hcomponent%matches_handle
      & (? & ? & -> & ->%matches_Chr
      & (endpoint & ? & -> & Hendpoint%matches_handle
      & (? & ? & -> & ->%matches_Chr
      & (? & ? & -> & ->%matches_Chr
      & (? & ? & -> & (major & minor & -> & Hmajor & Hminor)%matches_major_minor
      & (? & visibility & -> & ->%matches_Chr & Hvis%matches_visibility
        )%matches_Cat)%matches_Cat)%matches_Cat)%matches_Cat)%matches_Cat)%matches_Cat
        )%matches_Cat)%matches_Cat)%matches_Cat)%matches_Cat)%matches_Cat)%matches_Cat.
    exists org, project, component, endpoint, major, minor, visibility. done.
  - intros (org & project & component & endpoint & major & minor & visibility
            & -> & Horg & Hproject & Hcomponent & Hendpoint & Hmajor & Hminor & Hvis).
    repeat (apply matches_Cat; do 2 eexists; split; [reflexivity|]; split;
            [first [by apply matches_Lit | by apply matches_Chr | by apply matches_handle
                   | apply matches_major_minor; by exists major, minor]|]).
    by apply matches_visibility.
Qed.

(** A string that starts with [choreo:///] is accepted as a service name
    exactly when it continues with four handles, a version written with a
    lowercase [v], one group of digits and at most one more after a full
    stop, and one of the three visibilities, each part separated by one
    slash. *)
Theorem choreo_reference_shape (value path : jsstring) :
  startsWith value (str "choreo:///") = true →
  serviceName_violation value path = None
  ↔ ∃ org project component endpoint major minor visibility,
      value = str "choreo:///" ++ org ++ [47] ++ project ++ [47] ++ component ++ [47]
              ++ endpoint ++ [47] ++ [118] ++ (major ++ optional [46] minor []) ++ [47]
              ++ visibility
      ∧ handle org ∧ handle project ∧ handle component ∧ handle endpoint
      ∧ number_group major ∧ if_present number_group minor
      ∧ visibility ∈ visibilities.
Proof.
  intros Hprefix. rewrite (choreo_branch value path Hprefix).
  rewrite <- matches_choreo, <- test_matches.
  by destruct (test choreoSvcRefNameRegex value).
Qed.

Lemma choreo_reference_witness :
  serviceName_violation (str "choreo:///org/proj/comp/ep/v1.2/PUBLIC") (str "name") = None
  ↔ ∃ org project component endpoint major minor visibility,
      str "choreo:///org/proj/comp/ep/v1.2/PUBLIC"
      = str "choreo:///" ++ org ++ [47] ++ project ++ [47] ++ component ++ [47]
        ++ endpoint ++ [47] ++ [118] ++ (major ++ optional [46] minor []) ++ [47]
        ++ visibility
      ∧ handle org ∧ handle project ∧ handle component ∧ handle endpoint
      ∧ number_group major ∧ if_present number_group minor
      ∧ visibility ∈ visibilities.
Proof.
  apply (choreo_reference_shape (str "choreo:///org/proj/comp/ep/v1.2/PUBLIC") (str "name")).
  reflexivity.
Defined.

(** ** Resource references *)

Lemma resource_branch (value path : jsstring) :
  startsWith value (str "thirdparty:") = false →
  startsWith value (str "database:") = false →
  resourceRef_violation value path = None ↔ test svcRefNameRegex value = true.
Proof.
  intros Ht Hd. unfold resourceRef_violation, validateResourceRef, test_or_error.
  rewrite Ht, Hd.
  destruct (startsWith value (str "service:")); rewrite runTest_or_error;
    by destruct (test svcRefNameRegex value).
Qed.

Lemma matches_service_then (s : jsstring) :
  matches svcRefNameRegex s
  ↔ ∃ (with_prefix : bool) (rest : jsstring),
      s = (if with_prefix then str "service:" else []) ++ rest
      ∧ matches (Seq [Opt (Seq [Chr 47; alphanumericRegex; Chr 47]);
                     alphanumericRegex; Chr 47;
                     Opt (Class v_char); dotted_version;
                     Opt (Cat (Chr 47) alphanumericRegex);
                     Opt (Cat (Chr 47) visibility_alt)]) rest.
Proof.
  unfold svcRefNameRegex. cbn [Seq]. rewrite matches_Cat. split.
  - intros (s1 & s2 & -> & [->| ->%matches_Lit]%matches_Opt & Hrest).
    + by exists false, s2.
    + by exists true, s2.
  - intros (with_prefix & rest & -> & Hrest). do 2 eexists. split; [reflexivity|].
    split; [|done]. apply matches_Opt. destruct with_prefix; [right | by left].
    by apply matches_Lit.
Qed.

Lemma service_prefix_not_a_handle (rest : jsstring) :
  ¬ matches (Seq [Opt (Seq [Chr 47; alphanumericRegex; Chr 47]);
                  alphanumericRegex; Chr 47;
                  Opt (Class v_char); dotted_version;
                  Opt (Cat (Chr 47) alphanumericRegex);
                  Opt (Cat (Chr 47) visibility_alt)]) (str "service:" ++ rest).
Proof.
  intros H%test_matches. rewrite test_app, void_test in H; [done|].
  vm_compute. reflexivity.
Qed.

(** The [service:] prefix of a resource reference is optional: a
    reference without any of the prefixes [service:], [thirdparty:] and
    [database:] is accepted exactly when it is accepted with [service:]
    put in front. *)
Theorem service_prefix_is_optional (rest path : jsstring) :
  startsWith rest (str "service:") = false →
  startsWith rest (str "thirdparty:") = false →
  startsWith rest (str "database:") = false →
  resourceRef_violation (str "service:" ++ rest) path = None
  ↔ resourceRef_violation rest path = None.
Proof.
  intros Hs Ht Hd.
  rewrite (resource_branch (str "service:" ++ rest) path eq_refl eq_refl).
  rewrite (resource_branch rest path Ht Hd), !test_matches, !matches_service_then.
  split.
  - intros ([|] & tail & Heq & Htail).
    + apply (app_inv_head (str "service:")) in Heq as <-. by exists false, rest.
    + simpl in Heq. subst tail. by destruct (service_prefix_not_a_handle rest).
  - intros ([|] & tail & Heq & Htail).
    + assert (startsWith rest (str "service:") = true) as Hyes
        by (apply startsWith_app; by exists tail).
      congruence.
    + simpl in Heq. subst tail. by exists true, rest.
Qed.

Lemma service_prefix_is_optional_witness :
  resourceRef_violation (str "service:" ++ str "/proj/comp/v1/ep/PUBLIC") (str "resourceRef")
  = None
  ↔ resourceRef_violation (str "/proj/comp/v1/ep/PUBLIC") (str "resourceRef") = None.
Proof.
  apply (service_prefix_is_optional (str "/proj/comp/v1/ep/PUBLIC") (str "resourceRef"));
    reflexivity.
Defined.

(** On third-party and database references the two classifiers give the
    same outcome, the message of the violation included. *)
Theorem classifiers_agree_on_shared_prefixes (value path : jsstring) :
  startsWith value (str "thirdparty:") = true ∨ startsWith value (str "database:") = true →
  serviceName_violation value path = resourceRef_violation value path.
Proof.
  intros [H|H].
  - by destruct (thirdparty_branch value path H) as [-> ->].
  - by destruct (database_branch value path H) as [-> ->].
Qed.

Lemma classifiers_agree_witness :
  serviceName_violation (str "database:") (str "name")
  = resourceRef_violation (str "database:") (str "name").
Proof.
  apply (classifiers_agree_on_shared_prefixes (str "database:") (str "name")).
  right. reflexivity.
Defined.

(** No other string is accepted by both classifiers: what the
    service-name classifier accepts as a choreo reference the
    resource-reference classifier rejects, and conversely for service
    references. *)
Theorem accepted_by_both_only_shared_prefixes (value path : jsstring) :
  serviceName_violation value path = None →
  resourceRef_violation value path = None →
  startsWith value (str "thirdparty:") = true ∨ startsWith value (str "database:") = true.
Proof.
  intros Hname Href.
  destruct (startsWith value (str "thirdparty:")) eqn:Ht; [by left|].
  destruct (startsWith value (str "database:")) eqn:Hd; [by right|].
  exfalso. destruct (startsWith value (str "choreo:///")) eqn:Hc.
  - apply startsWith_app in Hc as (rest & ->).
    apply (resource_branch _ path Ht Hd) in Href.
    rewrite choreo_prefix_not_a_resource in Href. discriminate.
  - unfold serviceName_violation, validateServiceName in Hname.
    rewrite Hc, Ht, Hd in Hname. discriminate.
Qed.

Lemma accepted_by_both_witness :
  startsWith (str "thirdparty:Stripe/v1") (str "thirdparty:") = true
  ∨ startsWith (str "thirdparty:Stripe/v1") (str "database:") = true.
Proof.
  apply (accepted_by_both_only_shared_prefixes (str "thirdparty:Stripe/v1") (str "name"));
    reflexivity.
Defined.

Lemma matches_slash_handle_slash (x : jsstring) :
  matches (Seq [Chr 47; alphanumericRegex; Chr 47]) x
  ↔ ∃ text, x = [47] ++ text ++ [47] ∧ handle text.
Proof.
  cbn [Seq]. split.
  - intros (? & ? & -> & ->%matches_Chr
            & (text & ? & -> & Htext%matches_handle & ->%matches_Chr)%matches_Cat)%matches_Cat.
    by exists text.
  - intros (text & -> & Htext). apply matches_Cat. do 2 eexists. split; [reflexivity|].
    rewrite matches_Chr. split; [done|]. apply matches_Cat. do 2 eexists.
    split; [reflexivity|]. by rewrite matches_handle, matches_Chr.
Qed.

Lemma matches_slash_then (r : regex) (P : jsstring → Prop) :
  (∀ y, matches r y ↔ P y) →
  ∀ x, matches (Cat (Chr 47) r) x ↔ ∃ text, x = [47] ++ text ++ [] ∧ P text.
Proof.
  intros Hr x. rewrite matches_Cat. split.
  - intros (? & text & -> & ->%matches_Chr & Htext%Hr). exists text. by rewrite app_nil_r.
  - intros (text & -> & Htext). exists [47], text. by rewrite app_nil_r, matches_Chr, Hr.
Qed.

Lemma matches_version_mark (s : jsstring) :
  matches (Opt (Class v_char)) s
  ↔ ∃ mark : option N,
      s = match mark with None => [] | Some v => [v] end
      ∧ ∀ v, mark = Some v → v = 118 ∨ v = 86.
Proof.
  rewrite matches_Opt, matches_Class. unfold v_char. split.
  - intros [->|(v & -> & Hv)].
    + by exists None.
    + exists (Some v). split; [done|]. intros ? [= <-].
      apply orb_true_iff in Hv as [->%N.eqb_eq| ->%N.eqb_eq]; auto.
  - intros ([v|] & -> & Hmark); [right | by left].
    exists v. split; [done|]. by destruct (Hmark v eq_refl) as [-> | ->].
Qed.

Lemma matches_resource (s : jsstring) :
  matches svcRefNameRegex s ↔ ∃ ref, s = render ref ∧ well_formed ref.
Proof.
  rewrite matches_service_then. cbn [Seq]. split.
  - intros (with_prefix & rest & -> & Hrest).
    apply matches_Cat in Hrest
      as (? & ? & -> & (project & -> & Hproject)%(matches_Opt_part _ _ _ _ _
                                                   matches_slash_handle_slash) & Hrest).
    apply matches_Cat in Hrest as (component & ? & -> & Hcomponent%matches_handle & Hrest).
    apply matches_Cat in Hrest as (? & ? & -> & ->%matches_Chr & Hrest).
    apply matches_Cat in Hrest as (? & ? & -> & (mark & -> & Hmark)%matches_version_mark & Hrest).
    apply matches_Cat in Hrest
      as (? & ? & -> & (major & minors & -> & Hmajor & Hminors)%matches_dotted_version & Hrest).
    apply matches_Cat in Hrest
      as (? & ? & -> & (endpoint & -> & Hendpoint)%(matches_Opt_part _ _ _ _ _
                          (matches_slash_then _ _ matches_handle))
            & (visibility & -> & Hvisibility)%(matches_Opt_part _ _ _ _ _
                          (matches_slash_then _ _ matches_visibility))).
    exists {| with_service := with_prefix; project_handle := project;
              component_handle := component; version_mark := mark;
              version_major := major; version_minors := minors;
              endpoint_handle := endpoint; network_visibility := visibility |}.
    split; [|done]. unfold render. simpl. by rewrite <- !app_assoc.
  - intros ([with_prefix project component mark major minors endpoint visibility]
            & -> & Hproject & Hcomponent & Hmark & Hmajor & Hminors & Hendpoint & Hvisibility).
    unfold render.
    cbn [with_service project_handle component_handle version_mark version_major
         version_minors endpoint_handle network_visibility] in *.
    exists with_prefix. eexists. split; [reflexivity|].
    apply matches_Cat. do 2 eexists. split; [reflexivity|]. split.
    { apply (matches_Opt_part _ _ _ _ _ matches_slash_handle_slash). by exists project. }
    apply matches_Cat. do 2 eexists. split; [reflexivity|].
    rewrite matches_handle. split; [done|].
    apply matches_Cat. do 2 eexists. split; [reflexivity|].
    rewrite matches_Chr. split; [done|].
    apply matches_Cat. do 2 eexists. split; [reflexivity|]. split.
    { apply matches_version_mark. by exists mark. }
    rewrite (app_assoc major). apply matches_Cat. do 2 eexists. split; [reflexivity|]. split.
    { apply matches_dotted_version. by exists major, minors. }
    apply matches_Cat. do 2 eexists. split; [reflexivity|]. split.
    + apply (matches_Opt_part _ _ _ _ _ (matches_slash_then _ _ matches_handle)).
      by exists endpoint.
    + apply (matches_Opt_part _ _ _ _ _ (matches_slash_then _ _ matches_visibility)).
      by exists visibility.
Qed.

(** A string without the prefixes [thirdparty:] and [database:] is
    accepted as a resource reference exactly when it is the rendering of
    a well-formed reference: an optional [service:], an optional project
    handle between slashes, a component handle, a slash, a version with
    an optional [v] or [V], then optionally a slash and an endpoint
    handle and optionally a slash and a visibility. *)
Theorem resource_reference_shape (value path : jsstring) :
  startsWith value (str "thirdparty:") = false →
  startsWith value (str "database:") = false →
  resourceRef_violation value path = None
  ↔ ∃ ref, value = render ref ∧ well_formed ref.
Proof.
  intros Ht Hd. by rewrite (resource_branch value path Ht Hd), test_matches, matches_resource.
Qed.

Lemma resource_reference_witness :
  resourceRef_violation (str "service:/proj/comp/V1.0.2/ep/ORGANIZATION") (str "resourceRef")
  = None
  ↔ ∃ ref, str "service:/proj/comp/V1.0.2/ep/ORGANIZATION" = render ref ∧ well_formed ref.
Proof.
  apply (resource_reference_shape (str "service:/proj/comp/V1.0.2/ep/ORGANIZATION")
           (str "resourceRef")); reflexivity.
Defined.

Example resource_reference_rendering :
  render {| with_service := true; project_handle := Some (str "proj");
            component_handle := str "comp"; version_mark := Some 86;
            version_major := str "1"; version_minors := [str "0"; str "2"];
            endpoint_handle := Some (str "ep");
            network_visibility := Some (str "ORGANIZATION") |}
  = str "service:/proj/comp/V1.0.2/ep/ORGANIZATION".
Proof. reflexivity. Qed.

(** ** validateSourceConfigFile: what every call keeps *)

Section Calls.
Variables USER_ERROR INTERNAL_ERROR : jsstring.
Variables COMPONENT_YAML ENDPOINT_YAML COMPONENT_CONFIG_YAML : jsstring.
Variable validate : schema → jsstring → value → completion unit.
Variable property_of_nothing : value → exn.

Lemma report_is_coded (err : exn) (fileType : jsstring) :
  ∃ rest,
    constructValidationErrorMessage USER_ERROR INTERNAL_ERROR err fileType = USER_ERROR ++ rest
    ∨ constructValidationErrorMessage USER_ERROR INTERNAL_ERROR err fileType
      = INTERNAL_ERROR ++ rest.
Proof.
  unfold constructValidationErrorMessage.
  destruct (exn_errors err) as [[|e1 errors]|]; eexists; [right | left | right];
    rewrite <- ?app_assoc; reflexivity.
Qed.

Lemma dispatch_cases (doc : value) (srcDir fileType : jsstring) :
  let result :=
    dispatch COMPONENT_YAML ENDPOINT_YAML COMPONENT_CONFIG_YAML validate property_of_nothing
      doc srcDir fileType in
  (fileType = COMPONENT_YAML
   ∧ (result = ([], Throw (property_of_nothing doc))
      ∨ result = ([], Throw unsupported)
      ∨ ∃ s, (s = componentYamlSchemaV1D0 ∨ s = componentYamlSchemaV1D1)
             ∧ result = ([Validated s srcDir], validate s srcDir doc)))
  ∨ (fileType ≠ COMPONENT_YAML
     ∧ ((fileType = COMPONENT_CONFIG_YAML
         ∧ result = ([Warned olderSrcConfigMessage;
                      Validated componentConfigYamlSchemaV1beta1 srcDir],
                     validate componentConfigYamlSchemaV1beta1 srcDir doc))
        ∨ (fileType ≠ COMPONENT_CONFIG_YAML ∧ fileType = ENDPOINT_YAML
           ∧ result = ([Warned olderSrcConfigMessage; Validated endpointYamlSchemaV0D1 srcDir],
                       validate endpointYamlSchemaV0D1 srcDir doc))
        ∨ (fileType ≠ COMPONENT_CONFIG_YAML ∧ fileType ≠ ENDPOINT_YAML
           ∧ result = ([], Throw (Error (str "'" ++ fileType
                                         ++ str "' is not a valid source config file type")))))).
Proof.
  unfold dispatch, validateComponentYaml, run. simpl.
  destruct (decide (fileType = COMPONENT_YAML)) as [Hc|Hc].
  - left. split; [done|].
    assert ((if case_number (opt_get doc (str "schemaVersion")) lit_1_0
             then ([Validated componentYamlSchemaV1D0 srcDir],
                   validate componentYamlSchemaV1D0 srcDir doc)
             else if case_number (opt_get doc (str "schemaVersion")) lit_1_1
                  then ([Validated componentYamlSchemaV1D1 srcDir],
                        validate componentYamlSchemaV1D1 srcDir doc)
                  else ([], Throw unsupported))
            = ([], Throw unsupported)
            ∨ ∃ s, (s = componentYamlSchemaV1D0 ∨ s = componentYamlSchemaV1D1)
                   ∧ (if case_number (opt_get doc (str "schemaVersion")) lit_1_0
                      then ([Validated componentYamlSchemaV1D0 srcDir],
                            validate componentYamlSchemaV1D0 srcDir doc)
                      else if case_number (opt_get doc (str "schemaVersion")) lit_1_1
                           then ([Validated componentYamlSchemaV1D1 srcDir],
                                 validate componentYamlSchemaV1D1 srcDir doc)
                           else ([], Throw unsupported))
                     = ([Validated s srcDir], validate s srcDir doc)) as Hversion.
    { destruct (case_number _ lit_1_0); [right; eauto|].
      destruct (case_number _ lit_1_1); [right; eauto | by left]. }
    destruct doc; auto.
  - right. split; [done|].
    destruct (decide (fileType = COMPONENT_CONFIG_YAML)) as [Hg|Hg]; [by left|].
    destruct (decide (fileType = ENDPOINT_YAML)) as [He|He]; [right; by left|].
    right. by right.
Qed.

Lemma thrown_error_is_coded
    (doc : value) (srcDir fileType : jsstring) (events : list event) (err : exn) :
  validateSourceConfigFile USER_ERROR INTERNAL_ERROR
    COMPONENT_YAML ENDPOINT_YAML COMPONENT_CONFIG_YAML validate property_of_nothing
    doc srcDir fileType = (events, Throw err) →
  ∃ cause, err = Error (constructValidationErrorMessage USER_ERROR INTERNAL_ERROR
                          cause fileType).
Proof.
  unfold validateSourceConfigFile.
  destruct (dispatch _ _ _ _ _ _ _ _) as [events' [u|cause]]; intros [= <- <-].
  by exists cause.
Qed.

(** Whatever the document and the file type, an error that leaves
    [validateSourceConfigFile] is a plain [Error] without a list of
    violations, and its message starts with one of the two error
    codes. *)
Theorem validation_failure_is_coded
    (doc : value) (srcDir fileType : jsstring) (events : list event) (err : exn) :
  validateSourceConfigFile USER_ERROR INTERNAL_ERROR
    COMPONENT_YAML ENDPOINT_YAML COMPONENT_CONFIG_YAML validate property_of_nothing
    doc srcDir fileType = (events, Throw err) →
  exn_name err = str "Error" ∧ exn_errors err = None
  ∧ ∃ rest, exn_message err = USER_ERROR ++ rest ∨ exn_message err = INTERNAL_ERROR ++ rest.
Proof.
  intros (cause & ->)%thrown_error_is_coded. simpl.
  split; [done|]. split; [done|]. apply report_is_coded.
Qed.

(** A call runs at most one schema, and never the schema of
    component.yaml v1.2. *)
Theorem at_most_one_schema_runs (doc : value) (srcDir fileType : jsstring) :
  let events :=
    (validateSourceConfigFile USER_ERROR INTERNAL_ERROR
       COMPONENT_YAML ENDPOINT_YAML COMPONENT_CONFIG_YAML validate property_of_nothing
       doc srcDir fileType).1 in
  (length (executed events) ≤ 1)%nat ∧ componentYamlSchemaV1D2 ∉ executed events.
Proof.
  unfold validateSourceConfigFile.
  destruct (dispatch_cases doc srcDir fileType)
    as [[_ [->|[->|(s & Hs & ->)]]]|[_ [[_ ->]|[(_ & _ & ->)|(_ & _ & ->)]]]]; simpl.
  - split; [lia | apply not_elem_of_nil].
  - split; [lia | apply not_elem_of_nil].
  - destruct (validate s srcDir doc); simpl; (split; [lia|]);
      intros <-%list_elem_of_singleton; by destruct Hs.
  - destruct (validate _ srcDir doc); simpl; (split; [lia|]);
      by intros ?%list_elem_of_singleton.
  - destruct (validate _ srcDir doc); simpl; (split; [lia|]);
      by intros ?%list_elem_of_singleton.
  - split; [lia | apply not_elem_of_nil].
Qed.

(** The warning about an older source configuration is emitted, once and
    before the schema is run, for the two legacy file types; it is never
    emitted for component.yaml. *)
Theorem legacy_file_types_warn (doc : value) (srcDir fileType : jsstring) :
  let events :=
    (validateSourceConfigFile USER_ERROR INTERNAL_ERROR
       COMPONENT_YAML ENDPOINT_YAML COMPONENT_CONFIG_YAML validate property_of_nothing
       doc srcDir fileType).1 in
  (fileType = COMPONENT_YAML → ∀ message, Warned message ∉ events)
  ∧ (fileType ≠ COMPONENT_YAML → fileType = COMPONENT_CONFIG_YAML →
     events = [Warned olderSrcConfigMessage;
               Validated componentConfigYamlSchemaV1beta1 srcDir])
  ∧ (fileType ≠ COMPONENT_YAML → fileType ≠ COMPONENT_CONFIG_YAML →
     fileType = ENDPOINT_YAML →
     events = [Warned olderSrcConfigMessage; Validated endpointYamlSchemaV0D1 srcDir]).
Proof.
  unfold validateSourceConfigFile.
  destruct (dispatch_cases doc srcDir fileType)
    as [[Hc [->|[->|(s & Hs & ->)]]]|[Hc [[Hg ->]|[(Hg & He & ->)|(Hg & He & ->)]]]]; simpl;
    try (destruct (validate _ srcDir doc); simpl);
    (split; [|split]); try done;
    intros _ message Hin; try (by apply elem_of_nil in Hin);
    by apply list_elem_of_singleton in Hin.
Qed.

(** A file type that is none of the three known ones is refused before
    anything is run or warned about, and the refusal is reported as an
    internal error that quotes the file type. *)
Theorem unknown_file_type_is_refused (doc : value) (srcDir fileType : jsstring) :
  fileType ≠ COMPONENT_YAML → fileType ≠ COMPONENT_CONFIG_YAML → fileType ≠ ENDPOINT_YAML →
  validateSourceConfigFile USER_ERROR INTERNAL_ERROR
    COMPONENT_YAML ENDPOINT_YAML COMPONENT_CONFIG_YAML validate property_of_nothing
    doc srcDir fileType
  = ([], Throw (Error (INTERNAL_ERROR ++ str " Failed to validate " ++ fileType
                       ++ str ", something went wrong:" ++ str "Error: '" ++ fileType
                       ++ str "' is not a valid source config file type"))).
Proof.
  intros Hc Hg He. unfold validateSourceConfigFile, dispatch.
  rewrite !decide_False by done. reflexivity.
Qed.

(** An empty component.yaml, parsed to [undefined] or [null], runs no
    schema: reading its [schemaVersion] throws, and the [TypeError] is
    reported as an internal error. *)
Theorem empty_component_yaml_is_internal_error (doc : value) (srcDir : jsstring) :
  doc = VUndefined ∨ doc = VNull →
  exn_errors (property_of_nothing doc) = None →
  validateSourceConfigFile USER_ERROR INTERNAL_ERROR
    COMPONENT_YAML ENDPOINT_YAML COMPONENT_CONFIG_YAML validate property_of_nothing
    doc srcDir COMPONENT_YAML
  = ([], Throw (Error (INTERNAL_ERROR ++ str " Failed to validate " ++ COMPONENT_YAML
                       ++ str ", something went wrong:"
                       ++ toString (property_of_nothing doc)))).
Proof.
  intros Hdoc Herrors. unfold validateSourceConfigFile, dispatch.
  rewrite decide_True by done.
  destruct Hdoc as [-> | ->]; unfold constructValidationErrorMessage; by rewrite Herrors.
Qed.

(** When a call has run a schema, its outcome is the outcome of that
    schema and nothing else: it succeeds exactly when the schema
    resolved, and a rejection is rethrown as its report. *)
Theorem outcome_is_that_of_the_schema
    (doc : value) (srcDir fileType : jsstring) (s : schema) :
  let result :=
    validateSourceConfigFile USER_ERROR INTERNAL_ERROR
      COMPONENT_YAML ENDPOINT_YAML COMPONENT_CONFIG_YAML validate property_of_nothing
      doc srcDir fileType in
  executed result.1 = [s] →
  match validate s srcDir doc with
  | Normal _ => result.2 = Normal tt
  | Throw cause =>
      result.2 = Throw (Error (constructValidationErrorMessage USER_ERROR INTERNAL_ERROR
                                 cause fileType))
  end.
Proof.
  unfold validateSourceConfigFile.
  destruct (dispatch_cases doc srcDir fileType)
    as [[_ [->|[->|(s' & _ & ->)]]]|[_ [[_ ->]|[(_ & _ & ->)|(_ & _ & ->)]]]]; simpl;
    try done.
  - destruct (validate s' srcDir doc) eqn:E; simpl; intros [= <-]; by rewrite E.
  - destruct (validate _ srcDir doc) eqn:E; simpl; intros [= <-]; by rewrite E.
  - destruct (validate _ srcDir doc) eqn:E; simpl; intros [= <-]; by rewrite E.
Qed.
End Calls.

Lemma validation_failure_is_coded_witness :
  let err := Error (str "USER endpoints.yaml validation failed: port is required") in
  exn_name err = str "Error" ∧ exn_errors err = None
  ∧ ∃ rest, exn_message err = str "USER" ++ rest ∨ exn_message err = str "INTERNAL" ++ rest.
Proof.
  intros err.
  pose (validate := (λ _ _ _,
          Throw (Exn (str "ValidationError") (str "port is required")
                   (Some [str "port is required"])))
        : schema → jsstring → value → completion unit).
  apply (validation_failure_is_coded (str "USER") (str "INTERNAL")
           (str "component.yaml") (str "endpoints.yaml") (str "component-config.yaml")
           validate (λ _, Exn (str "TypeError") [] None)
           (VObj []) (str "/src") (str "endpoints.yaml")
           [Warned olderSrcConfigMessage; Validated endpointYamlSchemaV0D1 (str "/src")] err).
  reflexivity.
Defined.

Lemma legacy_file_types_warn_witness :
  let validate := λ (_ : schema) (_ : jsstring) (_ : value), Normal tt in
  (validateSourceConfigFile (str "USER") (str "INTERNAL")
     (str "component.yaml") (str "endpoints.yaml") (str "component-config.yaml")
     validate (λ _, Exn (str "TypeError") [] None)
     (VObj []) (str "/src") (str "endpoints.yaml")).1
  = [Warned olderSrcConfigMessage; Validated endpointYamlSchemaV0D1 (str "/src")].
Proof.
  intros validate.
  apply (proj2 (proj2 (legacy_file_types_warn (str "USER") (str "INTERNAL")
           (str "component.yaml") (str "endpoints.yaml") (str "component-config.yaml")
           validate (λ _, Exn (str "TypeError") [] None)
           (VObj []) (str "/src") (str "endpoints.yaml"))));
    [discriminate | discriminate | reflexivity].
Defined.

Lemma unknown_file_type_witness :
  validateSourceConfigFile (str "USER") (str "INTERNAL")
    (str "component.yaml") (str "endpoints.yaml") (str "component-config.yaml")
    (λ _ _ _, Normal tt) (λ _, Exn (str "TypeError") [] None)
    (VObj []) (str "/src") (str "docker.yaml")
  = ([], Throw (Error (str "INTERNAL Failed to validate docker.yaml, something went wrong:Error: 'docker.yaml' is not a valid source config file type"))).
Proof.
  apply (unknown_file_type_is_refused (str "USER") (str "INTERNAL")
           (str "component.yaml") (str "endpoints.yaml") (str "component-config.yaml")
           (λ _ _ _, Normal tt) (λ _, Exn (str "TypeError") [] None)
           (VObj []) (str "/src") (str "docker.yaml")); discriminate.
Defined.

Lemma empty_component_yaml_witness :
  validateSourceConfigFile (str "USER") (str "INTERNAL")
    (str "component.yaml") (str "endpoints.yaml") (str "component-config.yaml")
    (λ _ _ _, Normal tt)
    (λ _, Exn (str "TypeError") (str "Cannot read properties of undefined") None)
    VUndefined (str "/src") (str "component.yaml")
  = ([], Throw (Error (str "INTERNAL Failed to validate component.yaml, something went wrong:TypeError: Cannot read properties of undefined"))).
Proof.
  apply (empty_component_yaml_is_internal_error (str "USER") (str "INTERNAL")
           (str "component.yaml") (str "endpoints.yaml") (str "component-config.yaml")
           (λ _ _ _, Normal tt)
           (λ _, Exn (str "TypeError") (str "Cannot read properties of undefined") None)
           VUndefined (str "/src")); [by left | reflexivity].
Defined.

Lemma outcome_is_that_of_the_schema_witness :
  let rejection :=
    Exn (str "ValidationError") (str "2 errors occurred") (Some [str "a"; str "b"]) in
  let validate : schema → jsstring → value → completion unit := λ _ _ _, Throw rejection in
  (validateSourceConfigFile (str "USER") (str "INTERNAL")
     (str "component.yaml") (str "endpoints.yaml") (str "component-config.yaml")
     validate (λ _, Exn (str "TypeError") [] None)
     (VObj [(str "schemaVersion", VNum lit_1_1)]) (str "/src") (str "component.yaml")).2
  = Throw (Error (constructValidationErrorMessage (str "USER") (str "INTERNAL")
                    rejection (str "component.yaml"))).
Proof.
  intros rejection validate.
  apply (outcome_is_that_of_the_schema (str "USER") (str "INTERNAL")
           (str "component.yaml") (str "endpoints.yaml") (str "component-config.yaml")
           validate (λ _, Exn (str "TypeError") [] None)
           (VObj [(str "schemaVersion", VNum lit_1_1)]) (str "/src") (str "component.yaml")
           componentYamlSchemaV1D1).
  reflexivity.
Defined.

(** ** Reading, parsing and the entry point *)

Section Reading.
Variable USER_ERROR : jsstring.
Variables COMPONENT_YAML ENDPOINT_YAML COMPONENT_CONFIG_YAML : jsstring.
Variable join : jsstring → jsstring → jsstring.
Variable readFileSync : jsstring → completion jsstring.

Lemma known_file_type (fileType : jsstring) :
  bool_decide (fileType = COMPONENT_YAML) || bool_decide (fileType = ENDPOINT_YAML)
  || bool_decide (fileType = COMPONENT_CONFIG_YAML) = true
  ↔ fileType = COMPONENT_YAML ∨ fileType = ENDPOINT_YAML ∨ fileType = COMPONENT_CONFIG_YAML.
Proof. rewrite !orb_true_iff, !bool_decide_eq_true. tauto. Qed.

(** The configuration is read from [<root>/.choreo/<file type>] and from
    nowhere else: the call returns a content exactly when the file type
    is one of the three known ones and that file could be read. *)
Theorem config_file_location (filePath fileType fileContent : jsstring) :
  readSrcConfigYaml USER_ERROR COMPONENT_YAML ENDPOINT_YAML COMPONENT_CONFIG_YAML
    join readFileSync filePath fileType = Normal fileContent
  ↔ (fileType = COMPONENT_YAML ∨ fileType = ENDPOINT_YAML ∨ fileType = COMPONENT_CONFIG_YAML)
    ∧ readFileSync (join (join filePath (str ".choreo")) fileType) = Normal fileContent.
Proof.
  unfold readSrcConfigYaml. rewrite <- known_file_type.
  destruct (_ || _ || _); simpl.
  - destruct (readFileSync _); split; try done; by intros [_ ?].
  - split; [done | by intros [? _]].
Qed.

Lemma unknown_file_type_is_not_read (filePath fileType : jsstring) :
  fileType ≠ COMPONENT_YAML → fileType ≠ ENDPOINT_YAML → fileType ≠ COMPONENT_CONFIG_YAML →
  readSrcConfigYaml USER_ERROR COMPONENT_YAML ENDPOINT_YAML COMPONENT_CONFIG_YAML
    join readFileSync filePath fileType
  = Throw (Error (USER_ERROR ++ str " Failed to read source config file: "
                  ++ str "'" ++ fileType ++ str "' is not a valid source config file type")).
Proof.
  intros Hc He Hg. unfold readSrcConfigYaml.
  rewrite !bool_decide_eq_false_2 by done. reflexivity.
Qed.

(** Every failure of reading is rethrown as a user error: an unknown
    file type without touching the file system, an unreadable file with
    the message of the underlying error. *)
Theorem read_failures_are_user_errors (filePath fileType : jsstring) :
  (fileType ≠ COMPONENT_YAML → fileType ≠ ENDPOINT_YAML → fileType ≠ COMPONENT_CONFIG_YAML →
   readSrcConfigYaml USER_ERROR COMPONENT_YAML ENDPOINT_YAML COMPONENT_CONFIG_YAML
     join readFileSync filePath fileType
   = Throw (Error (USER_ERROR ++ str " Failed to read source config file: "
                   ++ str "'" ++ fileType ++ str "' is not a valid source config file type")))
  ∧ (∀ error,
       fileType = COMPONENT_YAML ∨ fileType = ENDPOINT_YAML ∨ fileType = COMPONENT_CONFIG_YAML →
       readFileSync (join (join filePath (str ".choreo")) fileType) = Throw error →
       readSrcConfigYaml USER_ERROR COMPONENT_YAML ENDPOINT_YAML COMPONENT_CONFIG_YAML
         join readFileSync filePath fileType
       = Throw (Error (USER_ERROR ++ str " Failed to read source config file: "
                       ++ exn_message error))).
Proof.
  split; [apply unknown_file_type_is_not_read|]. unfold readSrcConfigYaml.
  intros error Hknown%known_file_type Hread. by rewrite Hknown, Hread.
Qed.

End Reading.

Section EntryPoint.
Variables USER_ERROR INTERNAL_ERROR : jsstring.
Variables COMPONENT_YAML ENDPOINT_YAML COMPONENT_CONFIG_YAML : jsstring.
Variable getInput : jsstring → jsstring.
Variable join : jsstring → jsstring → jsstring.
Variable readFileSync : jsstring → completion jsstring.
Variable load : jsstring → completion value.
Variable validate : schema → jsstring → value → completion unit.
Variable property_of_nothing : value → exn.

(** [main] never lets an error escape: it ends either without logging
    anything, or with exactly one logged message followed by the failure
    mark, and that message starts with one of the two error codes. *)
Theorem main_reports_at_most_once :
  ∃ events,
    main USER_ERROR INTERNAL_ERROR COMPONENT_YAML ENDPOINT_YAML COMPONENT_CONFIG_YAML
      getInput join readFileSync load validate property_of_nothing
    = map Ran events
    ∨ ∃ code rest,
        (code = USER_ERROR ∨ code = INTERNAL_ERROR)
        ∧ main USER_ERROR INTERNAL_ERROR COMPONENT_YAML ENDPOINT_YAML COMPONENT_CONFIG_YAML
            getInput join readFileSync load validate property_of_nothing
          = map Ran events
            ++ [Logged (code ++ rest); SetFailed (str "Source config file validation failed")].
Proof.
  unfold main, readInput, report, parseYaml.
  destruct (readSrcConfigYaml _ _ _ _ _ _ _ _) as [content|error] eqn:Hread.
  - destruct (load content) as [document|error]; simpl.
    + destruct (validateSourceConfigFile _ _ _ _ _ _ _ _ _ _) as [events [u|err]] eqn:Hcall.
      * exists events. left. by rewrite app_nil_r.
      * exists events. right.
        pose proof (thrown_error_is_coded _ _ _ _ _ _ _ _ _ _ _ _ Hcall) as (cause & ->).
        destruct (report_is_coded USER_ERROR INTERNAL_ERROR cause (getInput (str "file-type")))
          as (rest & [Hm|Hm]); simpl; rewrite Hm; eauto.
    + exists []. right. exists USER_ERROR. eexists. split; [by left | reflexivity].
  - exists []. right. exists USER_ERROR. unfold readSrcConfigYaml in Hread.
    destruct (_ || _ || _); [destruct (readFileSync _); [done|]|];
      injection Hread as <-; eexists; (split; [by left | reflexivity]).
Qed.

(** In [main] an unknown file type is refused while reading, as a user
    error, so that nothing is read, parsed or validated, and the refusal
    of [validateSourceConfigFile] for unknown file types is never
    reached. *)
Theorem main_refuses_unknown_file_type :
  let fileType := getInput (str "file-type") in
  fileType ≠ COMPONENT_YAML → fileType ≠ ENDPOINT_YAML → fileType ≠ COMPONENT_CONFIG_YAML →
  main USER_ERROR INTERNAL_ERROR COMPONENT_YAML ENDPOINT_YAML COMPONENT_CONFIG_YAML
    getInput join readFileSync load validate property_of_nothing
  = [Logged (USER_ERROR ++ str " Failed to read source config file: "
             ++ str "'" ++ fileType ++ str "' is not a valid source config file type");
     SetFailed (str "Source config file validation failed")].
Proof.
  intros fileType Hc He Hg. unfold main, readInput.
  rewrite (unknown_file_type_is_not_read USER_ERROR COMPONENT_YAML ENDPOINT_YAML
             COMPONENT_CONFIG_YAML join readFileSync _ _ Hc He Hg).
  reflexivity.
Qed.

(** A file that is read but cannot be parsed is reported as a user
    error with the message of the parser, and nothing is validated. *)
Theorem main_reports_parse_failure (fileContent : jsstring) (error : exn) :
  readSrcConfigYaml USER_ERROR COMPONENT_YAML ENDPOINT_YAML COMPONENT_CONFIG_YAML
    join readFileSync (getInput (str "source-root-dir-path")) (getInput (str "file-type"))
  = Normal fileContent →
  load fileContent = Throw error →
  main USER_ERROR INTERNAL_ERROR COMPONENT_YAML ENDPOINT_YAML COMPONENT_CONFIG_YAML
    getInput join readFileSync load validate property_of_nothing
  = [Logged (USER_ERROR ++ str " Failed to parse yaml: " ++ exn_message error);
     SetFailed (str "Source config file validation failed")].
Proof.
  intros Hread Hload. unfold main, readInput, parseYaml. by rewrite Hread, Hload.
Qed.
End EntryPoint.

Lemma read_failures_witness :
  readSrcConfigYaml (str "USER") (str "component.yaml") (str "endpoints.yaml")
    (str "component-config.yaml") (λ a b, a ++ [47] ++ b)
    (λ _, Throw (Error (str "ENOENT: no such file or directory")))
    (str "/src") (str "docker.yaml")
  = Throw (Error (str "USER Failed to read source config file: 'docker.yaml' is not a valid source config file type"))
  ∧ readSrcConfigYaml (str "USER") (str "component.yaml") (str "endpoints.yaml")
      (str "component-config.yaml") (λ a b, a ++ [47] ++ b)
      (λ _, Throw (Error (str "ENOENT: no such file or directory")))
      (str "/src") (str "component.yaml")
    = Throw (Error (str "USER Failed to read source config file: ENOENT: no such file or directory")).
Proof.
  split.
  - apply (proj1 (read_failures_are_user_errors (str "USER") (str "component.yaml")
                    (str "endpoints.yaml") (str "component-config.yaml")
                    (λ a b, a ++ [47] ++ b)
                    (λ _, Throw (Error (str "ENOENT: no such file or directory")))
                    (str "/src") (str "docker.yaml"))); discriminate.
  - apply (proj2 (read_failures_are_user_errors (str "USER") (str "component.yaml")
                    (str "endpoints.yaml") (str "component-config.yaml")
                    (λ a b, a ++ [47] ++ b)
                    (λ _, Throw (Error (str "ENOENT: no such file or directory")))
                    (str "/src") (str "component.yaml"))
             (Error (str "ENOENT: no such file or directory")));
      [by left | reflexivity].
Defined.

Lemma main_refuses_unknown_file_type_witness :
  main (str "USER") (str "INTERNAL") (str "component.yaml") (str "endpoints.yaml")
    (str "component-config.yaml")
    (λ name, if bool_decide (name = str "file-type") then str "docker.yaml" else str "/src")
    (λ a b, a ++ [47] ++ b) (λ _, Normal (str "schemaVersion: 1.0"))
    (λ _, Normal (VObj [(str "schemaVersion", VNum lit_1_0)]))
    (λ _ _ _, Normal tt) (λ _, Exn (str "TypeError") [] None)
  = [Logged (str "USER Failed to read source config file: 'docker.yaml' is not a valid source config file type");
     SetFailed (str "Source config file validation failed")].
Proof.
  pose proof (main_refuses_unknown_file_type (str "USER") (str "INTERNAL")
                (str "component.yaml") (str "endpoints.yaml") (str "component-config.yaml")
                (λ name, if bool_decide (name = str "file-type") then str "docker.yaml"
                         else str "/src")
                (λ a b, a ++ [47] ++ b) (λ _, Normal (str "schemaVersion: 1.0"))
                (λ _, Normal (VObj [(str "schemaVersion", VNum lit_1_0)]))
                (λ _ _ _, Normal tt) (λ _, Exn (str "TypeError") [] None)) as H.
  cbv zeta in H. rewrite H; [reflexivity | discriminate | discriminate | discriminate].
Defined.

Lemma main_reports_parse_failure_witness :
  main (str "USER") (str "INTERNAL") (str "component.yaml") (str "endpoints.yaml")
    (str "component-config.yaml")
    (λ name, if bool_decide (name = str "file-type") then str "component.yaml" else str "/src")
    (λ a b, a ++ [47] ++ b) (λ _, Normal (str "endpoints: ["))
    (λ _, Throw (Exn (str "YAMLException") (str "unexpected end of the stream") None))
    (λ _ _ _, Normal tt) (λ _, Exn (str "TypeError") [] None)
  = [Logged (str "USER Failed to parse yaml: unexpected end of the stream");
     SetFailed (str "Source config file validation failed")].
Proof.
  apply (main_reports_parse_failure (str "USER") (str "INTERNAL") (str "component.yaml")
           (str "endpoints.yaml") (str "component-config.yaml")
           (λ name, if bool_decide (name = str "file-type") then str "component.yaml"
                    else str "/src")
           (λ a b, a ++ [47] ++ b) (λ _, Normal (str "endpoints: ["))
           (λ _, Throw (Exn (str "YAMLException") (str "unexpected end of the stream") None))
           (λ _ _ _, Normal tt) (λ _, Exn (str "TypeError") [] None)
           (str "endpoints: [")
           (Exn (str "YAMLException") (str "unexpected end of the stream") None));
    reflexivity.
Defined.

Example main_accepts_a_valid_component_yaml :
  main (str "USER") (str "INTERNAL") (str "component.yaml") (str "endpoints.yaml")
    (str "component-config.yaml")
    (λ name, if bool_decide (name = str "file-type") then str "component.yaml" else str "/src")
    (λ a b, a ++ [47] ++ b) (λ _, Normal (str "schemaVersion: 1.0"))
    (λ _, Normal (VObj [(str "schemaVersion", VNum lit_1_0)]))
    (λ _ _ _, Normal tt) (λ _, Exn (str "TypeError") [] None)
  = [Ran (Validated componentYamlSchemaV1D0 (str "/src"))].
Proof. reflexivity. Qed.
